(** * Encoding / binary classification engine of directory-serialization

    A shallow embedding of [detector/detector.go] (package [detector]) and
    the properties of its staged decision procedure: BOM scanner, null-byte
    binary scanner, per-script heuristics, UTF-8 validity fallback.

    Conventions of the embedding:
    - a Go [[]byte] is a [list byte]; a byte value is read as an integer
      with [u8], so the source's comparisons ([p > 0xdf], ...) are written
      with [Z] comparisons on [u8 p];
    - slice lengths and loop indices are [nat]; the Go [int] counters of
      the heuristics are [Z] (they never exceed the sample length, so no
      wrap-around is involved);
    - an encoding name is a [string]; the empty string is the source's
      "inconclusive" answer;
    - the Japanese sub-engine ([guessJP], file guess_ja.go) is a parameter
      of the development.

    The development also covers [findXMLEncoding] of the same file and
    [walkDir] of main.go, the caller of [IsText]; there the file system is
    a tree of the answers of the system calls, and [filepath.Join] and
    [sort.Slice] are parameters. *)

From Stdlib Require Import ZArith List String Bool Lia Permutation Sorted.
From Stdlib Require Import Strings.Byte.
Import ListNotations.

Local Open Scope string_scope.
Local Open Scope list_scope.
Local Open Scope Z_scope.

(** ** Bytes *)

Definition u8 (b : byte) : Z := Z.of_N (Byte.to_N b).

Definition byte_eqb (a b : byte) : bool := u8 a =? u8 b.

(** [len(s)] of a byte slice. *)
Definition len (s : list byte) : nat := List.length s.

(** ** Enumerations and the result record (detector.go, lines 15-54) *)

Inductive EncodingChoiceSource : Set :=
| DefaultEncoding
| AutoDetectedEncoding
| BOM
| EncodingFromXMLHeader
| EncodingFromMetaTag
| UserChosenEncoding.

(** Go's [None] member is spelled [ScriptNone] here: [None] is the
    constructor of [option]. *)
Inductive AutoDetectScript : Set :=
| ScriptNone
| Arabic
| Baltic
| CentralEuropean
| ChineseSimplified
| ChineseTraditional
| Cyrillic
| Greek
| Hebrew
| Japanese
| Korean
| Turkish
| WesternEuropean
| Unicode.

Record DetectorResult : Set := mkResult {
  Encoding : string;
  Source : EncodingChoiceSource;
  Script : AutoDetectScript;
  IsBinary : bool
}.

(** Modelled from the spec: the result type of the Japanese sub-engine,
    declared in guess_ja.go.  The source's [switch] names four codes
    ([JapaneseCodeJIS], [JapaneseCodeEUC], [JapaneseCodeSJIS],
    [JapaneseCodeUTF8]); every other value of the type takes the [default]
    branch and is represented by [JapaneseCodeOther]. *)
Inductive JapaneseCode : Set :=
| JapaneseCodeJIS
| JapaneseCodeEUC
| JapaneseCodeSJIS
| JapaneseCodeUTF8
| JapaneseCodeOther.

(** maxBuffer = 16 * 1024 (line 56), the 8000 bytes that [isBinary]
    examines (line 65) and the 1000 bytes that bound the Cyrillic loop
    (line 250). *)
Definition maxBuffer : nat := 16 * 1024.
Definition binaryWindow : nat := 8 * 1000.
Definition cyrillicWindow : nat := 10 * 100.

(** ** Library functions of Go used by the detector *)

(** [bytes.HasPrefix(s, prefix)]. *)
Fixpoint bytes_HasPrefix (s prefix : list byte) {struct prefix} : bool :=
  match prefix, s with
  | [], _ => true
  | _ :: _, [] => false
  | p :: prefix', b :: s' => byte_eqb b p && bytes_HasPrefix s' prefix'
  end.

(** [bytes.Contains(b, []byte{0})]: some element of [b] is the zero byte. *)
Definition bytes_Contains0 (b : list byte) : bool :=
  existsb (fun x => u8 x =? 0) b.

Definition inRange (c : byte) (lo hi : Z) : bool :=
  (lo <=? u8 c) && (u8 c <=? hi).

(** [utf8.Valid] of Go's unicode/utf8: ASCII bytes stand alone; a lead byte
    0xC2..0xDF takes one continuation byte, 0xE0..0xEF two, 0xF0..0xF4
    three; the first continuation byte is restricted after 0xE0 (0xA0..),
    0xED (..0x9F), 0xF0 (0x90..) and 0xF4 (..0x8F); every other byte, and a
    sequence cut short by the end of the slice, is invalid. *)
Fixpoint utf8_Valid (p : list byte) : bool :=
  match p with
  | [] => true
  | pi :: rest =>
      let x := u8 pi in
      if x <? 0x80 then utf8_Valid rest
      else if (x <? 0xC2) || (0xF4 <? x) then false
      else if x <? 0xE0 then
        match rest with
        | c1 :: r => inRange c1 0x80 0xBF && utf8_Valid r
        | _ => false
        end
      else if x <? 0xF0 then
        let lo := if x =? 0xE0 then 0xA0 else 0x80 in
        let hi := if x =? 0xED then 0x9F else 0xBF in
        match rest with
        | c1 :: c2 :: r =>
            inRange c1 lo hi && inRange c2 0x80 0xBF && utf8_Valid r
        | _ => false
        end
      else
        let lo := if x =? 0xF0 then 0x90 else 0x80 in
        let hi := if x =? 0xF4 then 0x8F else 0xBF in
        match rest with
        | c1 :: c2 :: c3 :: r =>
            inRange c1 lo hi && inRange c2 0x80 0xBF
            && inRange c3 0x80 0xBF && utf8_Valid r
        | _ => false
        end
  end.

(** ** The detector *)

(** isBinary (lines 60-69). *)
Definition isBinary (data : list byte) : bool :=
  let checkLen := len data in
  let checkLen := if (binaryWindow <? checkLen)%nat then binaryWindow else checkLen in
  bytes_Contains0 (firstn checkLen data).

(** errorsIfUtf8 (lines 73-75). *)
Definition errorsIfUtf8 (data : list byte) : bool := negb (utf8_Valid data).

(** IsText (lines 170-177). *)
Definition IsText (data : list byte) : bool :=
  if (len data =? 0)%nat then true else negb (isBinary data).

(** checkBOM (lines 179-191). *)
Definition checkBOM (data : list byte) : string * bool :=
  if bytes_HasPrefix data [xef; xbb; xbf] then ("UTF-8-BOM", true)
  else if bytes_HasPrefix data [xfe; xff] then ("UTF-16BE", true)
  else if bytes_HasPrefix data [xff; xfe] then ("UTF-16LE", true)
  else ("", false).

(** [ptr[i]] for an index the loops keep below [len(ptr)]. *)
Definition at_ (ptr : list byte) (i : nat) : byte := nth i ptr x00.

(** *** Western European (lines 219-240)

    [weLoop n i ptr nonANSICount] runs the [n] remaining iterations of
    [for i := 0; i < size-1; i++], starting at index [i], and then the
    code after the loop. *)
Fixpoint weLoop (n i : nat) (ptr : list byte) (nonANSICount : Z) : string :=
  match n with
  | O => if 0 <? nonANSICount then "iso-8859-15" else ""
  | S n' =>
      let p := u8 (at_ ptr i) in
      if 0x79 <? p then
        let nonANSICount := nonANSICount + 1 in
        let q := u8 (at_ ptr (i + 1)) in
        if (0xc1 <? p) && (p <? 0xf0) && (0x7f <? q) && (q <? 0xc0) then "UTF-8"
        else if (0x78 <=? p) && (p <=? 0x9F) then "cp1252"
        else weLoop n' (S i) ptr nonANSICount
      else weLoop n' (S i) ptr nonANSICount
  end.

Definition automaticDetectionForWesternEuropean (ptr : list byte) : string :=
  let size := len ptr in
  if (size =? 0)%nat then ""
  else weLoop (size - 1) 0 ptr 0.

(** *** Cyrillic (lines 242-300) *)

Record CyrillicCounters : Set := mkCyr {
  utf8Mark : Z;
  koiScore : Z;
  cp1251Score : Z;
  koiSt : Z;
  cp1251St : Z;
  cp1251SmallRange : Z;
  koiSmallRange : Z;
  ibm866SmallRange : Z
}.

Definition cyrZero : CyrillicCounters := mkCyr 0 0 0 0 0 0 0 0.

(** One iteration of the loop body (the [switch] of lines 257-277) on
    [p = ptr[i]] and [prev = ptr[i-1]]. *)
Definition cyrStep (prev p : byte) (c : CyrillicCounters) : CyrillicCounters :=
  let '(mkCyr um ks cs kst cst c51 koi ibm) := c in
  if 0xdf <? u8 p then
    let c51 := c51 + 1 in
    if u8 p =? 0xee then mkCyr um ks (cs + 1) kst cst c51 koi ibm
    else if (u8 p =? 0xf2) && (u8 prev =? 0xf1) then mkCyr um ks cs kst (cst + 1) c51 koi ibm
    else mkCyr um ks cs kst cst c51 koi ibm
  else if 0xbf <? u8 p then
    let koi := koi + 1 in
    let um := if (u8 p =? 0xd0) || (u8 p =? 0xd1) then um + 1 else um in
    if u8 p =? 0xcf then mkCyr um (ks + 1) cs kst cst c51 koi ibm
    else if (u8 p =? 0xd4) && (u8 prev =? 0xd3) then mkCyr um ks cs (kst + 1) cst c51 koi ibm
    else mkCyr um ks cs kst cst c51 koi ibm
  else if (0x9f <? u8 p) && (u8 p <? 0xb0) then
    mkCyr um ks cs kst cst c51 koi (ibm + 1)
  else c.

(** [cyrLoop n i ptr c]: the [n] remaining iterations of
    [for i := 1; i < limit; i++], starting at index [i]. *)
Fixpoint cyrLoop (n i : nat) (ptr : list byte) (c : CyrillicCounters) : CyrillicCounters :=
  match n with
  | O => c
  | S n' => cyrLoop n' (S i) ptr (cyrStep (at_ ptr (i - 1)) (at_ ptr i) c)
  end.

(** The limit computed by lines 248-253 from the counters as they are
    before the loop. *)
Definition cyrLimit (size : nat) (c : CyrillicCounters) : nat :=
  if cp1251SmallRange c + koiSmallRange c <? 1000 then
    if (cyrillicWindow <? size)%nat then cyrillicWindow else size
  else size.

(** The code after the loop (lines 280-299). *)
Definition cyrDecide (c : CyrillicCounters) : string :=
  let total := cp1251SmallRange c + koiSmallRange c + ibm866SmallRange c in
  if total <? 8 then ""
  else if total <? 3 * utf8Mark c then "UTF-8"
  else if cp1251SmallRange c + koiSmallRange c <? ibm866SmallRange c then "ibm866"
  else
    let '(koiScore', cp1251Score') :=
      if (cp1251St c =? 0) && (1 <? koiSt c) then (koiScore c + 10, cp1251Score c)
      else if (koiSt c =? 0) && (1 <? cp1251St c) then (koiScore c, cp1251Score c + 10)
      else (koiScore c, cp1251Score c) in
    if koiScore' <? cp1251Score' then "cp1251" else "koi8-u".

Definition cyrCount (ptr : list byte) : CyrillicCounters :=
  let limit := cyrLimit (len ptr) cyrZero in
  cyrLoop (limit - 1) 1 ptr cyrZero.

Definition automaticDetectionForCyrillic (ptr : list byte) : string :=
  cyrDecide (cyrCount ptr).

(** *** Index safety

    The two index loops once more, with [ptr[i]] evaluated as Go does:
    [None] stands for the run-time panic on an index out of range.  (The
    source reads [ptr[i+1]] only when the tests on [ptr[i]] succeed; the
    checked loop reads it in every iteration, which is the stronger
    requirement.) *)

Definition index (ptr : list byte) (i : nat) : option byte := nth_error ptr i.

Fixpoint weLoop_checked (n i : nat) (ptr : list byte) (nonANSICount : Z)
  : option string :=
  match n with
  | O => Some (if 0 <? nonANSICount then "iso-8859-15" else "")
  | S n' =>
      match index ptr i, index ptr (i + 1) with
      | Some b, Some b' =>
          let p := u8 b in
          if 0x79 <? p then
            let nonANSICount := nonANSICount + 1 in
            let q := u8 b' in
            if (0xc1 <? p) && (p <? 0xf0) && (0x7f <? q) && (q <? 0xc0)
            then Some "UTF-8"
            else if (0x78 <=? p) && (p <=? 0x9F) then Some "cp1252"
            else weLoop_checked n' (S i) ptr nonANSICount
          else weLoop_checked n' (S i) ptr nonANSICount
      | _, _ => None
      end
  end.

Definition WesternEuropean_checked (ptr : list byte) : option string :=
  let size := len ptr in
  if (size =? 0)%nat then Some ""
  else weLoop_checked (size - 1) 0 ptr 0.

Fixpoint cyrLoop_checked (n i : nat) (ptr : list byte) (c : CyrillicCounters)
  : option CyrillicCounters :=
  match n with
  | O => Some c
  | S n' =>
      match index ptr (i - 1), index ptr i with
      | Some prev, Some p => cyrLoop_checked n' (S i) ptr (cyrStep prev p c)
      | _, _ => None
      end
  end.

Definition Cyrillic_checked (ptr : list byte) : option string :=
  let limit := cyrLimit (len ptr) cyrZero in
  option_map cyrDecide (cyrLoop_checked (limit - 1) 1 ptr cyrZero).

(** *** The six presence tests (lines 325-403)

    Each is a [for _, p := range ptr] loop that returns at the first
    marker byte, written as a recursion over the slice. *)

Definition arabicMarker (p : Z) : bool :=
  ((0x80 <=? p) && (p <=? 0x9F)) || (p =? 0xA1) || (p =? 0xA2) || (p =? 0xA3)
  || ((0xA5 <=? p) && (p <=? 0xAB)) || ((0xAE <=? p) && (p <=? 0xBA))
  || (p =? 0xBC) || (p =? 0xBD) || (p =? 0xBE) || (p =? 0xC0)
  || ((0xDB <=? p) && (p <=? 0xDF)) || (0xF3 <=? p).

Fixpoint automaticDetectionForArabic (ptr : list byte) : string :=
  match ptr with
  | [] => "iso-8859-6"
  | b :: rest =>
      if arabicMarker (u8 b) then "cp1256" else automaticDetectionForArabic rest
  end.

Fixpoint automaticDetectionForBaltic (ptr : list byte) : string :=
  match ptr with
  | [] => "iso-8859-13"
  | b :: rest =>
      let p := u8 b in
      if (0x80 <=? p) && (p <=? 0x9E) then "cp1257"
      else if (p =? 0xA1) || (p =? 0xA5) then "iso-8859-13"
      else automaticDetectionForBaltic rest
  end.

(** [ceLoop rest i size charset]: the iterations of
    [for i, p := range ptr] that remain when [rest = ptr[i:]], followed by
    the code after the loop; [size] is [len(ptr)]. *)
Fixpoint ceLoop (rest : list byte) (i size : nat) (charset : string) : string :=
  match rest with
  | [] => if String.eqb charset "" then "iso-8859-3" else charset
  | b :: rest' =>
      let p := u8 b in
      if (0x80 <=? p) && (p <=? 0x9F) then
        if (p =? 0x81) || (p =? 0x83) || (p =? 0x90) || (p =? 0x98) then "ibm852"
        else if (size <? i + 1)%nat then "cp1250"
        else ceLoop rest' (S i) size "cp1250"
      else if (p =? 0xA5) || (p =? 0xAE) || (p =? 0xBE) || (p =? 0xC3)
              || (p =? 0xD0) || (p =? 0xE3) || (p =? 0xF0) then
        if (size <? i + 1)%nat then "iso-8859-2"
        else ceLoop rest' (S i) size (if String.eqb charset "" then "iso-8859-2" else charset)
      else ceLoop rest' (S i) size charset
  end.

Definition automaticDetectionForCentralEuropean (ptr : list byte) : string :=
  ceLoop ptr 0 (len ptr) "".

Definition greekMarker (p : Z) : bool :=
  (p =? 0x80) || ((0x82 <=? p) && (p <=? 0x87)) || (p =? 0x89) || (p =? 0x8B)
  || ((0x91 <=? p) && (p <=? 0x97)) || (p =? 0x99) || (p =? 0x9B)
  || (p =? 0xA4) || (p =? 0xA5) || (p =? 0xAE).

Fixpoint automaticDetectionForGreek (ptr : list byte) : string :=
  match ptr with
  | [] => "iso-8859-7"
  | b :: rest =>
      if greekMarker (u8 b) then "cp1253" else automaticDetectionForGreek rest
  end.

Definition hebrewMarker (p : Z) : bool :=
  (p =? 0x80) || ((0x82 <=? p) && (p <=? 0x89)) || (p =? 0x8B)
  || ((0x91 <=? p) && (p <=? 0x99)) || (p =? 0x9B) || (p =? 0xA1)
  || ((0xBF <=? p) && (p <=? 0xC9)) || ((0xCB <=? p) && (p <=? 0xD8)).

Fixpoint automaticDetectionForHebrew (ptr : list byte) : string :=
  match ptr with
  | [] => "iso-8859-8-i"
  | b :: rest =>
      if hebrewMarker (u8 b) then "cp1255"
      else if u8 b =? 0xDF then "iso-8859-8-i"
      else automaticDetectionForHebrew rest
  end.

Definition turkishMarker (p : Z) : bool :=
  (p =? 0x80) || ((0x82 <=? p) && (p <=? 0x8C))
  || ((0x91 <=? p) && (p <=? 0x9C)) || (p =? 0x9F).

Fixpoint automaticDetectionForTurkish (ptr : list byte) : string :=
  match ptr with
  | [] => "iso-8859-9"
  | b :: rest =>
      if turkishMarker (u8 b) then "cp1254" else automaticDetectionForTurkish rest
  end.

Definition script_eqb (a b : AutoDetectScript) : bool :=
  match a, b with
  | ScriptNone, ScriptNone | Arabic, Arabic | Baltic, Baltic
  | CentralEuropean, CentralEuropean | ChineseSimplified, ChineseSimplified
  | ChineseTraditional, ChineseTraditional | Cyrillic, Cyrillic
  | Greek, Greek | Hebrew, Hebrew | Japanese, Japanese | Korean, Korean
  | Turkish, Turkish | WesternEuropean, WesternEuropean
  | Unicode, Unicode => true
  | _, _ => false
  end.

Section Detector.

(** The entry point of the Japanese sub-engine, [newJapaneseCode().guessJP]
    of guess_ja.go: a fresh scanner is created for every call, so its
    answer is a function of the sample. *)
Variable guessJP : list byte -> JapaneseCode.

(** automaticDetectionForJapanese (lines 302-319). *)
Definition automaticDetectionForJapanese (ptr : list byte) : string :=
  match guessJP ptr with
  | JapaneseCodeJIS => "jis7"
  | JapaneseCodeEUC => "eucjp"
  | JapaneseCodeSJIS => "sjis"
  | JapaneseCodeUTF8 => "utf8"
  | JapaneseCodeOther => ""
  end.

(** runHeuristics (lines 193-215). *)
Definition runHeuristics (sample : list byte) (script : AutoDetectScript) : string :=
  match script with
  | Arabic => automaticDetectionForArabic sample
  | Baltic => automaticDetectionForBaltic sample
  | CentralEuropean => automaticDetectionForCentralEuropean sample
  | Cyrillic => automaticDetectionForCyrillic sample
  | Greek => automaticDetectionForGreek sample
  | Hebrew => automaticDetectionForHebrew sample
  | Japanese => automaticDetectionForJapanese sample
  | Turkish => automaticDetectionForTurkish sample
  | WesternEuropean => automaticDetectionForWesternEuropean sample
  | _ => ""
  end.

(** EncodingDetector (lines 79-165).  The result record is built once and
    updated field by field in the source; each [return result] is written
    here as the record it holds at that point. *)
Definition EncodingDetector (data : list byte) (scriptHint : AutoDetectScript)
  : DetectorResult :=
  let result := mkResult "binary" DefaultEncoding ScriptNone true in
  if (len data =? 0)%nat then mkResult "us-ascii" DefaultEncoding ScriptNone false
  else
    let '(enc, ok) := checkBOM data in
    if ok then mkResult enc BOM ScriptNone false
    else if isBinary data then result
    else
      let checkLen := len data in
      let checkLen := if (maxBuffer <? checkLen)%nat then maxBuffer else checkLen in
      let sample := firstn checkLen data in
      (* lines 132-164: reached when there is no hint or it did not help *)
      let unhinted :=
        let enc := automaticDetectionForWesternEuropean sample in
        if negb (String.eqb enc "") then
          mkResult enc AutoDetectedEncoding WesternEuropean false
        else
          let enc := automaticDetectionForCyrillic sample in
          if negb (String.eqb enc "") then
            mkResult enc AutoDetectedEncoding Cyrillic false
          else
            let enc := automaticDetectionForJapanese sample in
            if negb (String.eqb enc "") then
              mkResult enc AutoDetectedEncoding Japanese false
            else if negb (errorsIfUtf8 data) then
              mkResult "UTF-8" AutoDetectedEncoding ScriptNone false
            else mkResult "us-ascii" DefaultEncoding ScriptNone false in
      if negb (script_eqb scriptHint ScriptNone) then
        let detectedEnc := runHeuristics sample scriptHint in
        if negb (String.eqb detectedEnc "") then
          mkResult detectedEnc AutoDetectedEncoding scriptHint false
        else unhinted
      else unhinted.

End Detector.

(** ** The XML declaration scanner (lines 405-424)

    Go strings are byte sequences; [string(data)] keeps the bytes. *)

(** [strings.Index(s, substr)]: the index of the first occurrence of
    [substr] in [s]; [None] is Go's -1. *)
Fixpoint strings_Index (s substr : list byte) : option nat :=
  if bytes_HasPrefix s substr then Some 0%nat
  else match s with
       | [] => None
       | _ :: s' => option_map S (strings_Index s' substr)
       end.

(** The two quote characters, 0x22 and 0x27, that make up the character
    class of [xmlEncodingRegex]. *)
Definition isQuote (b : byte) : bool := (u8 b =? 0x22) || (u8 b =? 0x27).

(** The longest run of bytes outside the class at the head of [l], and
    what follows it: the only way in which one or more characters of the
    negated class can be followed by a quote. *)
Fixpoint spanValue (l : list byte) : list byte * list byte :=
  match l with
  | [] => ([], [])
  | b :: l' =>
      if isQuote b then ([], l)
      else let '(v, r) := spanValue l' in (b :: v, r)
  end.

(** A match of [xmlEncodingRegex], encoding= followed by a quote, one or
    more non-quote characters and a quote, that starts at the head of
    [l]: the text of its group.  (A character of the negated class is any
    rune but the two quotes; a quote never occurs inside the UTF-8
    encoding of another rune, so the group ends at the same byte whether
    the text is read by runes or by bytes.) *)
Definition matchEncodingAt (l : list byte) : option (list byte) :=
  if bytes_HasPrefix l (list_byte_of_string "encoding=") then
    match skipn 9 l with
    | q :: l' =>
        if isQuote q then
          match spanValue l' with
          | (b :: v, _ :: _) => Some (b :: v)
          | _ => None
          end
        else None
    | [] => None
    end
  else None.

(** [xmlEncodingRegex.FindStringSubmatch(header)]: the group of the
    leftmost match, [None] when the result is nil. *)
Fixpoint FindStringSubmatch (header : list byte) : option (list byte) :=
  match matchEncodingAt header with
  | Some v => Some v
  | None =>
      match header with
      | [] => None
      | _ :: header' => FindStringSubmatch header'
      end
  end.

(** findXMLEncoding (lines 410-424). *)
Definition findXMLEncoding (data : list byte) : string :=
  let s := data in
  match strings_Index s (list_byte_of_string "<?xml") with
  | Some match_ =>
      match strings_Index (skipn match_ s) (list_byte_of_string "?>") with
      | Some end_ =>
          let header := firstn end_ (skipn match_ s) in
          match FindStringSubmatch header with
          | Some v => string_of_list_byte v
          | None => ""
          end
      | None => ""
      end
  | None => ""
  end.

(** ** Vocabulary of the specification *)

(** [data] begins with the bytes of [prefix]. *)
Definition starts_with (prefix data : list byte) : Prop :=
  exists rest, data = prefix ++ rest.

(** None of the three recognised byte-order marks opens [data]. *)
Definition BOM_free (data : list byte) : Prop :=
  ~ starts_with [xef; xbb; xbf] data
  /\ ~ starts_with [xfe; xff] data
  /\ ~ starts_with [xff; xfe] data.

(** Some byte among the first [n] of [data] is 0x00. *)
Definition null_within (n : nat) (data : list byte) : Prop :=
  exists i, (i < n)%nat /\ nth_error data i = Some x00.

(** The analysis window handed to the heuristics: the first 16 KiB. *)
Definition sample_of (data : list byte) : list byte := firstn maxBuffer data.

(** The outcome of the final UTF-8 validity check (lines 157-164). *)
Definition utf8Fallback (data : list byte) : DetectorResult :=
  if utf8_Valid data then mkResult "UTF-8" AutoDetectedEncoding ScriptNone false
  else mkResult "us-ascii" DefaultEncoding ScriptNone false.

(** A byte with its top bit set. *)
Definition highBit (b : byte) : bool := 0x80 <=? u8 b.

(** The number of high-bit bytes of a sample. *)
Fixpoint highBitCount (l : list byte) : nat :=
  match l with
  | [] => 0%nat
  | b :: rest => ((if highBit b then 1 else 0) + highBitCount rest)%nat
  end.

(** The sum the Cyrillic decision compares with 8. *)
Definition bucket_total (c : CyrillicCounters) : Z :=
  cp1251SmallRange c + koiSmallRange c + ibm866SmallRange c.

(** The counters that do not look at the preceding byte: the three range
    buckets, the UTF-8 marker count and the two letter scores. *)
Definition bucket_view (c : CyrillicCounters) : Z * Z * Z * Z * Z * Z :=
  (cp1251SmallRange c, koiSmallRange c, ibm866SmallRange c,
   utf8Mark c, koiScore c, cp1251Score c).

(** The Cyrillic loop as a left-to-right pass over the bytes it visits,
    [prev] being the byte before the first of them. *)
Fixpoint cyrFold (prev : byte) (l : list byte) (c : CyrillicCounters)
  : CyrillicCounters :=
  match l with
  | [] => c
  | p :: l' => cyrFold p l' (cyrStep prev p c)
  end.

(** The pass over a whole window: the first byte only serves as [prev]. *)
Definition cyrScan (window : list byte) : CyrillicCounters :=
  match window with
  | [] => cyrZero
  | b0 :: rest => cyrFold b0 rest cyrZero
  end.

(** A text made of two-byte UTF-8 sequences with lead byte 0xD0 or 0xD1,
    that is of characters U+0400..U+047F, the Cyrillic letters. *)
Fixpoint cyrillic_letters (l : list byte) : bool :=
  match l with
  | [] => true
  | lead :: cont :: rest =>
      ((u8 lead =? 0xD0) || (u8 lead =? 0xD1)) && inRange cont 0x80 0xBF
      && cyrillic_letters rest
  | _ => false
  end.

(** The names a text classification can carry: those of the BOM table,
    of the heuristics and of the final fallback. *)
Definition text_names : list string :=
  [ "us-ascii"; "UTF-8"; "UTF-8-BOM"; "UTF-16BE"; "UTF-16LE";
    "cp1252"; "iso-8859-15"; "ibm866"; "cp1251"; "koi8-u";
    "jis7"; "eucjp"; "sjis"; "utf8";
    "cp1256"; "iso-8859-6"; "cp1257"; "iso-8859-13";
    "ibm852"; "cp1250"; "iso-8859-2"; "iso-8859-3";
    "cp1253"; "iso-8859-7"; "cp1255"; "iso-8859-8-i";
    "cp1254"; "iso-8859-9" ].

(** An answer of a heuristic: inconclusive, or one of [text_names]. *)
Definition answer_ok (s : string) : Prop :=
  existsb (String.eqb s) ("" :: text_names) = true.

(** The part of [EncodingDetector] that follows the hint (lines 132-164),
    as a function of the buffer: the three default heuristics in order,
    then the UTF-8 validity check. *)
Definition unhinted_outcome (guessJP : list byte -> JapaneseCode)
           (data : list byte) : DetectorResult :=
  let sample := sample_of data in
  if negb (String.eqb (automaticDetectionForWesternEuropean sample) "") then
    mkResult (automaticDetectionForWesternEuropean sample)
             AutoDetectedEncoding WesternEuropean false
  else if negb (String.eqb (automaticDetectionForCyrillic sample) "") then
    mkResult (automaticDetectionForCyrillic sample)
             AutoDetectedEncoding Cyrillic false
  else if negb (String.eqb (automaticDetectionForJapanese guessJP sample) "") then
    mkResult (automaticDetectionForJapanese guessJP sample) AutoDetectedEncoding Japanese false
  else utf8Fallback data.

(** * The directory walk of main.go

    [walkDir] (main.go, lines 19-103) reads the file system and writes to
    the two output streams.  The file system is the tree it finds there,
    each node carrying what the system calls return for it; the streams
    are the lists of the texts written, one element for each call of
    [Println] or [Fprintf], without the final newline. *)

(** A directory entry.  [File name read]: [os.ReadFile] returns the error
    [inl e] or the content [inr data].  [Dir name opened items readdir]:
    [os.Open] fails with [opened = Some e]; otherwise [Readdir(-1)] returns
    [items], together with an error when [readdir = Some e]. *)
#[warnings="-register-all"]
Inductive Node : Type :=
| File (name : string) (read : string + list byte)
| Dir (name : string) (opened : option string) (items : list Node)
      (readdir : option string).

(** [item.Name()] and [item.IsDir()]. *)
Definition Name (n : Node) : string :=
  match n with File name _ => name | Dir name _ _ _ => name end.

Definition IsDir (n : Node) : bool :=
  match n with File _ _ => false | Dir _ _ _ _ => true end.

(** fileInfo (lines 13-16). *)
Record fileInfo : Type := mkFileInfo { relPath : string; isText : bool }.

(** What a call of [walkDir] has written and what it returns: the error
    [inl e] of [return nil, err], or the files of [return files, nil]. *)
Record Walked : Type := mkWalked {
  stdout : list string;
  stderr : list string;
  returned : string + list fileInfo
}.

(** The comparison handed to [sort.Slice] (lines 33-39): directories
    first, then by name; Go compares strings byte by byte. *)
Definition less (a b : Node) : bool :=
  if negb (Bool.eqb (IsDir a) (IsDir b)) then IsDir a
  else String.ltb (Name a) (Name b).

Section Walk.

(** [filepath.Join] and [sort.Slice], of Go's library. *)
Variable filepath_Join : string -> string -> string.
Variable sort_Slice : (Node -> Node -> bool) -> list Node -> list Node.

Local Infix "+++" := String.append (at level 60, right associativity).

(** The body of [for i, item := range items] (lines 42-100) on the items
    from index [i] on, [n] being [len(items)]; [walk] is the recursive
    call.  The result is what the iterations write to the two streams and
    append to [files]; [None] when [walk] gives out. *)
Fixpoint walkItems
         (walk : option string -> list Node -> option string ->
                 string -> string -> string -> option Walked)
         (rest : list Node) (i n : nat)
         (currentDir baseRelPath prefix : string)
  : option (list string * list string * list fileInfo) :=
  match rest with
  | [] => Some ([], [], [])
  | item :: rest' =>
      let continue_ := walkItems walk rest' (S i) n currentDir baseRelPath prefix in
      if String.eqb (Name item) ".git" then continue_
      else if String.eqb (Name item) "temp" then continue_
      else
        let last := (i =? n - 1)%nat in
        let name := Name item in
        let childRelPath := filepath_Join baseRelPath name in
        match item with
        | Dir _ opened items readdir =>
            let line := if last then prefix +++ "└── " +++ name +++ "/"
                        else prefix +++ "├── " +++ name +++ "/" in
            let newPrefix := if last then prefix +++ "    "
                             else prefix +++ "│   " in
            let fullPath := filepath_Join currentDir name in
            match walk opened items readdir fullPath childRelPath newPrefix with
            | None => None
            | Some sub =>
                match continue_ with
                | None => None
                | Some (out, err, files) =>
                    match returned sub with
                    | inl e =>
                        Some (line :: stdout sub ++ out,
                              stderr sub
                              ++ ("Error accessing " +++ fullPath +++ ": " +++ e) :: err,
                              files)
                    | inr subFiles =>
                        Some (line :: stdout sub ++ out,
                              stderr sub ++ err,
                              subFiles ++ files)
                    end
                end
            end
        | File _ read =>
            let line := if last then prefix +++ "└── " +++ name
                        else prefix +++ "├── " +++ name in
            let fullPath := filepath_Join currentDir name in
            match continue_ with
            | None => None
            | Some (out, err, files) =>
                match read with
                | inr data =>
                    Some (line :: out, err,
                          mkFileInfo childRelPath (IsText data) :: files)
                | inl e =>
                    Some (line :: out,
                          ("Could not read file " +++ fullPath
                           +++ " to determine type: " +++ e) :: err,
                          mkFileInfo childRelPath false :: files)
                end
            end
        end
  end.

(** walkDir (lines 19-103) on the directory whose system calls answer
    [opened], [items] and [readdir].  The recursion follows the tree
    through the sorted items; [fuel] bounds its depth, and the result is
    [None] when it runs out. *)
Fixpoint walkDir (fuel : nat) (opened : option string) (items : list Node)
         (readdir : option string) (currentDir baseRelPath prefix : string)
  : option Walked :=
  match fuel with
  | O => None
  | S fuel' =>
      match opened with
      | Some e => Some (mkWalked [] [] (inl e))
      | None =>
          let err0 :=
            match readdir with
            | Some e => ["Error reading directory " +++ currentDir +++ ": " +++ e]
            | None => []
            end in
          let items := sort_Slice less items in
          match walkItems (walkDir fuel') items 0 (List.length items)
                          currentDir baseRelPath prefix with
          | Some (out, err, files) => Some (mkWalked out (err0 ++ err) (inr files))
          | None => None
          end
      end
  end.

(** An entry the walk passes over: lines 44-49. *)
Definition skipped (n : Node) : bool :=
  String.eqb (Name n) ".git" || String.eqb (Name n) "temp".

(** The files of the tree below [n] that the walk can reach, with the
    path and the flag it gives them: nothing for a skipped entry or below
    a directory that cannot be opened. *)
Fixpoint visibleFiles (base : string) (n : Node) : list fileInfo :=
  if skipped n then []
  else
    match n with
    | File name (inr data) => [mkFileInfo (filepath_Join base name) (IsText data)]
    | File name (inl _) => [mkFileInfo (filepath_Join base name) false]
    | Dir name (Some _) _ _ => []
    | Dir name None items _ =>
        flat_map (visibleFiles (filepath_Join base name)) items
    end.

(** The entries the walk prints a line for. *)
Fixpoint visibleEntries (n : Node) : nat :=
  if skipped n then 0%nat
  else
    match n with
    | File _ _ => 1%nat
    | Dir _ (Some _) _ _ => 1%nat
    | Dir _ None items _ => S (list_sum (map visibleEntries items))
    end.

(** What a call of [walkDir] is expected to give for a directory with the
    answers [opened] and [items]: the error of [os.Open], or the reachable
    files in some order and one line for each reachable entry. *)
Definition walk_spec (r : option Walked) (opened : option string)
           (items : list Node) (base : string) : Prop :=
  match opened with
  | Some e => r = Some (mkWalked [] [] (inl e))
  | None =>
      exists out err files,
        r = Some (mkWalked out err (inr files))
        /\ Permutation files (flat_map (visibleFiles base) items)
        /\ List.length out = list_sum (map visibleEntries items)
  end.

End Walk.

(** The height of a tree. *)
Fixpoint depth (n : Node) : nat :=
  match n with
  | File _ _ => 0%nat
  | Dir _ _ items _ => S (list_max (map depth items))
  end.

(** A listing is sorted for [less] when no entry is less than one before
    it: what [sort.Slice] leaves behind. *)
Definition sorted_by_less (l : list Node) : Prop :=
  StronglySorted (fun a b => less b a = false) l.

(** [sort.Slice] as an insertion sort, and a [filepath.Join] for paths
    that need no cleaning. *)
Fixpoint insert_by (lt : Node -> Node -> bool) (x : Node) (l : list Node)
  : list Node :=
  match l with
  | [] => [x]
  | y :: l' => if lt y x then y :: insert_by lt x l' else x :: l
  end.

Definition insertion_sort (lt : Node -> Node -> bool) (l : list Node) : list Node :=
  fold_right (insert_by lt) [] l.

Definition join_plain (a b : string) : string :=
  if String.eqb a "" then b else String.append a (String.append "/" b).

(** ** Vocabulary of the further properties *)

(** The names each heuristic of [runHeuristics] can answer with. *)
Definition hint_names (script : AutoDetectScript) : list string :=
  match script with
  | Arabic => ["cp1256"; "iso-8859-6"]
  | Baltic => ["cp1257"; "iso-8859-13"]
  | CentralEuropean => ["ibm852"; "cp1250"; "iso-8859-2"; "iso-8859-3"]
  | Cyrillic => ["UTF-8"; "ibm866"; "cp1251"; "koi8-u"]
  | Greek => ["cp1253"; "iso-8859-7"]
  | Hebrew => ["cp1255"; "iso-8859-8-i"]
  | Japanese => ["jis7"; "eucjp"; "sjis"; "utf8"]
  | Turkish => ["cp1254"; "iso-8859-9"]
  | WesternEuropean => ["UTF-8"; "cp1252"; "iso-8859-15"]
  | _ => []
  end.

(** The six script families whose heuristic is a presence test. *)
Definition presence_tests : list AutoDetectScript :=
  [Arabic; Baltic; CentralEuropean; Greek; Hebrew; Turkish].

(** The table of byte-order marks of [checkBOM]. *)
Definition BOM_table : list (list byte * string) :=
  [ ([xef; xbb; xbf], "UTF-8-BOM"); ([xfe; xff], "UTF-16BE");
    ([xff; xfe], "UTF-16LE") ].

(** A buffer that gets past the first three stages of the detector. *)
Definition text_path (data : list byte) : Prop :=
  data <> [] /\ BOM_free data /\ ~ null_within binaryWindow data.

(** The ways in which [EncodingDetector] arrives at a result, one
    constructor for each: the empty buffer, a byte-order mark, a null
    byte, the hinted heuristic, the Western European heuristic, the
    Japanese heuristic, and the two outcomes of the UTF-8 validity check.
    [skipped] says that the hint stage did not return. *)
Section Paths.

Variable guessJP : list byte -> JapaneseCode.
Variable data : list byte.
Variable hint : AutoDetectScript.

Definition hint_skipped : Prop :=
  hint = ScriptNone \/ runHeuristics guessJP (sample_of data) hint = "".

Inductive classified : DetectorResult -> Prop :=
| by_empty :
    data = [] ->
    classified (mkResult "us-ascii" DefaultEncoding ScriptNone false)
| by_BOM (prefix : list byte) (name : string) :
    In (prefix, name) BOM_table -> starts_with prefix data ->
    classified (mkResult name BOM ScriptNone false)
| by_null :
    data <> [] -> BOM_free data -> null_within binaryWindow data ->
    classified (mkResult "binary" DefaultEncoding ScriptNone true)
| by_hint :
    text_path data -> hint <> ScriptNone ->
    runHeuristics guessJP (sample_of data) hint <> "" ->
    classified (mkResult (runHeuristics guessJP (sample_of data) hint)
                         AutoDetectedEncoding hint false)
| by_WesternEuropean :
    text_path data -> hint_skipped ->
    automaticDetectionForWesternEuropean (sample_of data) <> "" ->
    classified (mkResult (automaticDetectionForWesternEuropean (sample_of data))
                         AutoDetectedEncoding WesternEuropean false)
| by_Japanese :
    text_path data -> hint_skipped ->
    automaticDetectionForWesternEuropean (sample_of data) = "" ->
    automaticDetectionForJapanese guessJP (sample_of data) <> "" ->
    classified (mkResult (automaticDetectionForJapanese guessJP (sample_of data))
                         AutoDetectedEncoding Japanese false)
| by_valid_UTF8 :
    text_path data -> hint_skipped ->
    automaticDetectionForWesternEuropean (sample_of data) = "" ->
    automaticDetectionForJapanese guessJP (sample_of data) = "" ->
    utf8_Valid data = true ->
    classified (mkResult "UTF-8" AutoDetectedEncoding ScriptNone false)
| by_default :
    text_path data -> hint_skipped ->
    automaticDetectionForWesternEuropean (sample_of data) = "" ->
    automaticDetectionForJapanese guessJP (sample_of data) = "" ->
    utf8_Valid data = false ->
    classified (mkResult "us-ascii" DefaultEncoding ScriptNone false).

End Paths.

(** The Western European loop as a recursion over the sample: the byte
    [p] is examined only when a byte [q] follows it. *)
Fixpoint weScan (ptr : list byte) (nonANSICount : Z) : string :=
  match ptr with
  | b :: ((b' :: _) as rest) =>
      let p := u8 b in
      if 0x79 <? p then
        let nonANSICount := nonANSICount + 1 in
        let q := u8 b' in
        if (0xc1 <? p) && (p <? 0xf0) && (0x7f <? q) && (q <? 0xc0) then "UTF-8"
        else if (0x78 <=? p) && (p <=? 0x9F) then "cp1252"
        else weScan rest nonANSICount
      else weScan rest nonANSICount
  | _ => if 0 <? nonANSICount then "iso-8859-15" else ""
  end.

(** A byte that the Cyrillic loop counts in one of its three range
    buckets: 0xA0..0xAF or 0xC0..0xFF. *)
Definition bucketed (b : byte) : bool :=
  (0xbf <? u8 b) || ((0x9f <? u8 b) && (u8 b <? 0xb0)).

(** The bytes the Cyrillic loop visits: indices 1 to 999 of the sample. *)
Definition cyrVisited (ptr : list byte) : list byte :=
  tl (firstn cyrillicWindow ptr).

(** What the Cyrillic loop keeps true of its counters after [n] bytes:
    none is negative, the marks and scores of a range are counted within
    that range, and the three ranges together hold at most [n]. *)
Definition cyr_bounded (c : CyrillicCounters) (n : Z) : Prop :=
  0 <= utf8Mark c /\ 0 <= koiScore c /\ 0 <= koiSt c
  /\ 0 <= cp1251Score c /\ 0 <= cp1251St c /\ 0 <= ibm866SmallRange c
  /\ utf8Mark c + koiScore c + koiSt c <= koiSmallRange c
  /\ cp1251Score c + cp1251St c <= cp1251SmallRange c
  /\ bucket_total c <= n.

(** The three byte classes of the Central European heuristic. *)
Definition ceIbm (b : byte) : bool :=
  (u8 b =? 0x81) || (u8 b =? 0x83) || (u8 b =? 0x90) || (u8 b =? 0x98).

Definition ceHigh (b : byte) : bool := (0x80 <=? u8 b) && (u8 b <=? 0x9F).

Definition ceIso (b : byte) : bool :=
  (u8 b =? 0xA5) || (u8 b =? 0xAE) || (u8 b =? 0xBE) || (u8 b =? 0xC3)
  || (u8 b =? 0xD0) || (u8 b =? 0xE3) || (u8 b =? 0xF0).

(** The answer of the Central European loop on the bytes still to be
    read, given the charset noted so far. *)
Definition ceAnswer (rest : list byte) (charset : string) : string :=
  if existsb ceIbm rest then "ibm852"
  else if existsb ceHigh rest then "cp1250"
  else if String.eqb charset "" then
    if existsb ceIso rest then "iso-8859-2" else "iso-8859-3"
  else charset.

(** An XML declaration with version 1.0 that names the encoding [name],
    both attribute values in double quotes. *)
Definition xml_prolog : list byte :=
  list_byte_of_string "<?xml version=" ++ [x22] ++ list_byte_of_string "1.0"
  ++ [x22] ++ list_byte_of_string " encoding=" ++ [x22].

Definition xml_declaration (name : list byte) : list byte :=
  xml_prolog ++ name ++ [x22] ++ list_byte_of_string "?>".

(** A Cyrillic text in Windows-1251: the Russian words "khorosho moloko"
    after a space. *)
Definition khorosho_cp1251 : list byte :=
  [x20; xf5; xee; xf0; xee; xf8; xee; x20; xec; xee; xeb; xee; xea; xee].

(** ** Concrete inputs *)

Definition hello_world : list byte := list_byte_of_string "hello world".

(** A sub-engine that never recognises a Japanese encoding. *)
Definition guessJP_unknown : list byte -> JapaneseCode := fun _ => JapaneseCodeOther.

(** The Russian words "privet mir", written without the space, in UTF-8:
    nine Cyrillic letters, eighteen high-bit bytes. *)
Definition privet_mir : list byte :=
  [xd0; xbf; xd1; x80; xd0; xb8; xd0; xb2; xd0; xb5; xd1; x82;
   xd0; xbc; xd0; xb8; xd1; x80].

(** A short Cyrillic text in Windows-1251 with two high-bit bytes: a
    space, the Russian word da (0xE4 0xE0), a space, and the letters ok. *)
Definition da_ok_cp1251 : list byte := [x20; xe4; xe0; x20; x6f; x6b].

(** Two samples that differ in their first byte only. *)
Definition sample_f1 : list byte := [xf1; xf2; xd3; xd4; xd3; xd4; xee; xe0; xe0].
Definition sample_41 : list byte := [x41; xf2; xd3; xd4; xd3; xd4; xee; xe0; xe0].

(** A small tree: a text file, a binary file, an unreadable file, a
    directory to skip and a directory holding one text file. *)
Definition sample_tree : list Node :=
  [ File "b.txt" (inr hello_world);
    File "a.bin" (inr [x7f; x45; x4c; x46; x00; x01]);
    File "locked" (inl "permission denied");
    Dir ".git" None [File "config" (inr hello_world)] None;
    Dir "src" None [File "main.go" (inr hello_world)] None ].

(** * Properties *)

(** ** Evaluation on concrete buffers *)

Example window_sizes :
  Z.of_nat maxBuffer = 16384 /\ Z.of_nat binaryWindow = 8000
  /\ Z.of_nat cyrillicWindow = 1000.
Proof. repeat split. Qed.

Example hello_world_bytes :
  hello_world = [x68; x65; x6c; x6c; x6f; x20; x77; x6f; x72; x6c; x64].
Proof. reflexivity. Qed.

Example WesternEuropean_samples :
  automaticDetectionForWesternEuropean [x63; x61; x66; xe9; x21] = "iso-8859-15"
  /\ automaticDetectionForWesternEuropean [x63; x61; x66; xc3; xa9] = "UTF-8"
  /\ automaticDetectionForWesternEuropean [x80; x32; x30] = "cp1252"
  /\ automaticDetectionForWesternEuropean [x63; x61; x66; xe9] = ""
  /\ automaticDetectionForWesternEuropean hello_world = "".
Proof. repeat split. Qed.

Example Cyrillic_samples :
  automaticDetectionForCyrillic privet_mir = "UTF-8"
  /\ automaticDetectionForCyrillic [x20; xef; xf0; xe8; xe2; xe5; xf2; xec; xe8; xf0; xee]
     = "cp1251"
  /\ automaticDetectionForCyrillic [x20; xd0; xd2; xc9; xd7; xc5; xd4; xcd; xc9; xd2; xcf]
     = "koi8-u"
  /\ automaticDetectionForCyrillic [x20; xaf; xe0; xa8; xa2; xa5; xe2; xac; xa8; xe0; xa0; xa0; xa1]
     = "ibm866"
  /\ automaticDetectionForCyrillic hello_world = "".
Proof. repeat split. Qed.

Example privet_mir_hinted :
  EncodingDetector guessJP_unknown privet_mir Cyrillic
  = mkResult "UTF-8" AutoDetectedEncoding Cyrillic false.
Proof. reflexivity. Qed.

Example hello_world_unknown :
  EncodingDetector guessJP_unknown hello_world ScriptNone
  = mkResult "UTF-8" AutoDetectedEncoding ScriptNone false.
Proof. vm_compute. reflexivity. Qed.

(** ** Bytes, prefixes and windows *)


Lemma u8_inj (a b : byte) : u8 a = u8 b -> a = b.
Proof.
  unfold u8. intros H. apply N2Z.inj in H.
  pose proof (Byte.of_to_N a) as Ha. rewrite H, Byte.of_to_N in Ha.
  congruence.
Qed.

Lemma byte_eqb_eq (a b : byte) : byte_eqb a b = true <-> a = b.
Proof.
  unfold byte_eqb. rewrite Z.eqb_eq. split.
  - apply u8_inj.
  - intros ->. reflexivity.
Qed.

Lemma u8_zero (b : byte) : (u8 b =? 0) = true <-> b = x00.
Proof. exact (byte_eqb_eq b x00). Qed.

Lemma bytes_HasPrefix_spec (prefix s : list byte) :
  bytes_HasPrefix s prefix = true <-> starts_with prefix s.
Proof.
  revert s. induction prefix as [|p prefix IH]; intros s; simpl.
  - split; [intros _; exists s; reflexivity | reflexivity].
  - destruct s as [|b s].
    + split; [discriminate | intros [rest H]; discriminate].
    + rewrite andb_true_iff, byte_eqb_eq, IH. split.
      * intros [-> [rest ->]]. exists rest. reflexivity.
      * intros [rest H]. injection H as -> ->. split; [reflexivity | now exists rest].
Qed.


Lemma checkBOM_BOM_free (data : list byte) :
  BOM_free data <-> checkBOM data = ("", false).
Proof.
  unfold BOM_free, checkBOM.
  rewrite <- !bytes_HasPrefix_spec.
  destruct (bytes_HasPrefix data [xef; xbb; xbf]),
           (bytes_HasPrefix data [xfe; xff]),
           (bytes_HasPrefix data [xff; xfe]);
    split; intros H; try discriminate H; try reflexivity;
    try (destruct H as (H1 & H2 & H3); congruence);
    repeat split; discriminate.
Qed.

Lemma window_firstn (w : nat) (data : list byte) :
  firstn (if (w <? len data)%nat then w else len data) data = firstn w data.
Proof.
  destruct (w <? len data)%nat eqn:E; [reflexivity|].
  apply Nat.ltb_ge in E. unfold len in *.
  rewrite firstn_all. symmetry. now apply firstn_all2.
Qed.

Lemma bytes_Contains0_spec (n : nat) (data : list byte) :
  bytes_Contains0 (firstn n data) = true <-> null_within n data.
Proof.
  unfold bytes_Contains0, null_within. rewrite existsb_exists. split.
  - intros (x & Hin & Hx). apply u8_zero in Hx. subst x.
    apply In_nth_error in Hin. destruct Hin as [i Hi].
    rewrite nth_error_firstn in Hi.
    destruct (i <? n)%nat eqn:E; [|discriminate].
    apply Nat.ltb_lt in E. now exists i.
  - intros (i & Hlt & Hi). exists x00. split; [|reflexivity].
    apply nth_error_In with (n := i). rewrite nth_error_firstn.
    apply Nat.ltb_lt in Hlt. now rewrite Hlt.
Qed.

Lemma isBinary_spec (data : list byte) :
  isBinary data = true <-> null_within binaryWindow data.
Proof.
  unfold isBinary. cbv zeta. rewrite window_firstn. apply bytes_Contains0_spec.
Qed.

Lemma isBinary_false (data : list byte) :
  isBinary data = false <-> ~ null_within binaryWindow data.
Proof.
  rewrite <- isBinary_spec. destruct (isBinary data); split; congruence.
Qed.

Lemma len_zero (data : list byte) : (len data =? 0)%nat = true <-> data = [].
Proof.
  rewrite Nat.eqb_eq. unfold len. destruct data; simpl; split; congruence.
Qed.

Lemma len_nonzero (data : list byte) : data <> [] -> (len data =? 0)%nat = false.
Proof.
  intros H. destruct (len data =? 0)%nat eqn:E; [|reflexivity].
  apply len_zero in E. contradiction.
Qed.


Lemma negb_String_eqb_empty (s : string) : negb (String.eqb s "") = true <-> s <> "".
Proof.
  rewrite negb_true_iff. destruct (String.eqb s "") eqn:E.
  - apply String.eqb_eq in E. split; congruence.
  - apply String.eqb_neq in E. split; auto.
Qed.

(** ** The stages of [EncodingDetector] *)

Section Stages.

Variable guessJP : list byte -> JapaneseCode.

Local Abbreviation detect := (EncodingDetector guessJP).
Local Abbreviation japanese := (automaticDetectionForJapanese guessJP).
Local Abbreviation hinted := (runHeuristics guessJP).

Lemma detect_empty (hint : AutoDetectScript) :
  detect [] hint = mkResult "us-ascii" DefaultEncoding ScriptNone false.
Proof. reflexivity. Qed.

Lemma detect_BOM (data : list byte) (hint : AutoDetectScript) (enc : string) :
  data <> [] -> checkBOM data = (enc, true) ->
  detect data hint = mkResult enc BOM ScriptNone false.
Proof.
  intros Hne Hbom. unfold EncodingDetector.
  rewrite (len_nonzero _ Hne), Hbom. reflexivity.
Qed.

Lemma detect_binary (data : list byte) (hint : AutoDetectScript) :
  data <> [] -> checkBOM data = ("", false) -> isBinary data = true ->
  detect data hint = mkResult "binary" DefaultEncoding ScriptNone true.
Proof.
  intros Hne Hbom Hbin. unfold EncodingDetector.
  rewrite (len_nonzero _ Hne), Hbom, Hbin. reflexivity.
Qed.

(** Past the BOM and binary stages the detector is the hint stage followed
    by [unhinted_outcome]. *)
Lemma detect_text (data : list byte) (hint : AutoDetectScript) :
  data <> [] -> checkBOM data = ("", false) -> isBinary data = false ->
  detect data hint =
    if negb (script_eqb hint ScriptNone)
       && negb (String.eqb (hinted (sample_of data) hint) "")
    then mkResult (hinted (sample_of data) hint) AutoDetectedEncoding hint false
    else unhinted_outcome guessJP data.
Proof.
  intros Hne Hbom Hbin. unfold EncodingDetector.
  rewrite (len_nonzero _ Hne), Hbom, Hbin. cbv zeta.
  rewrite window_firstn. fold (sample_of data).
  unfold unhinted_outcome, utf8Fallback, errorsIfUtf8. cbv zeta.
  rewrite negb_involutive.
  destruct (negb (script_eqb hint ScriptNone)); simpl; reflexivity.
Qed.

End Stages.

(** ** BOM scanner, binary scanner and the quick predicate *)

Lemma unhinted_not_binary (guessJP : list byte -> JapaneseCode) (data : list byte) :
  IsBinary (unhinted_outcome guessJP data) = false.
Proof.
  unfold unhinted_outcome, utf8Fallback. cbv zeta.
  repeat match goal with |- context [if ?b then _ else _] => destruct b end;
    reflexivity.
Qed.

Lemma detect_text_not_binary (guessJP : list byte -> JapaneseCode)
      (data : list byte) (hint : AutoDetectScript) :
  data <> [] -> checkBOM data = ("", false) -> isBinary data = false ->
  IsBinary (EncodingDetector guessJP data hint) = false.
Proof.
  intros Hne Hbom Hbin. rewrite (detect_text guessJP data hint Hne Hbom Hbin).
  destruct (_ && _); [reflexivity | apply unhinted_not_binary].
Qed.

(** ** The names the stages can return *)

Ltac split_ifs :=
  repeat match goal with
         | |- context [if ?b then _ else _] => destruct b
         end.

Lemma answer_ok_named (s : string) : answer_ok s -> s <> "" -> In s text_names.
Proof.
  unfold answer_ok. intros H Hne.
  apply existsb_exists in H. destruct H as (x & [Hx|Hx] & E);
    apply String.eqb_eq in E; subst x.
  - congruence.
  - exact Hx.
Qed.

Lemma text_names_proper (s : string) :
  In s text_names -> s <> "" /\ s <> "binary".
Proof.
  intros H. split; intros ->; revert H; unfold text_names; simpl;
    intuition discriminate.
Qed.

Lemma weLoop_answer (n i : nat) (ptr : list byte) (k : Z) :
  answer_ok (weLoop n i ptr k).
Proof.
  revert i k. induction n as [|n IH]; intros i k; cbn [weLoop]; cbv zeta;
    split_ifs; try reflexivity; apply IH.
Qed.

Lemma WesternEuropean_answer (ptr : list byte) :
  answer_ok (automaticDetectionForWesternEuropean ptr).
Proof.
  unfold automaticDetectionForWesternEuropean. cbv zeta.
  destruct (len ptr =? 0)%nat; [reflexivity | apply weLoop_answer].
Qed.

Lemma cyrDecide_answer (c : CyrillicCounters) : answer_ok (cyrDecide c).
Proof.
  unfold cyrDecide. cbv zeta. split_ifs; reflexivity.
Qed.

Lemma Cyrillic_answer (ptr : list byte) :
  answer_ok (automaticDetectionForCyrillic ptr).
Proof. apply cyrDecide_answer. Qed.

Lemma Arabic_answer (ptr : list byte) : answer_ok (automaticDetectionForArabic ptr).
Proof.
  induction ptr as [|b rest IH]; cbn [automaticDetectionForArabic];
    split_ifs; try reflexivity; exact IH.
Qed.

Lemma Baltic_answer (ptr : list byte) : answer_ok (automaticDetectionForBaltic ptr).
Proof.
  induction ptr as [|b rest IH]; cbn [automaticDetectionForBaltic]; cbv zeta;
    split_ifs; try reflexivity; exact IH.
Qed.

Lemma ceLoop_answer (rest : list byte) (i size : nat) (charset : string) :
  charset = "" \/ charset = "cp1250" \/ charset = "iso-8859-2" ->
  answer_ok (ceLoop rest i size charset).
Proof.
  revert i charset. induction rest as [|b rest IH]; intros i charset Hc;
    cbn [ceLoop]; cbv zeta.
  - destruct Hc as [->|[->| ->]]; reflexivity.
  - split_ifs; try reflexivity; apply IH; auto.
Qed.

Lemma CentralEuropean_answer (ptr : list byte) :
  answer_ok (automaticDetectionForCentralEuropean ptr).
Proof. apply ceLoop_answer. now left. Qed.

Lemma Greek_answer (ptr : list byte) : answer_ok (automaticDetectionForGreek ptr).
Proof.
  induction ptr as [|b rest IH]; cbn [automaticDetectionForGreek];
    split_ifs; try reflexivity; exact IH.
Qed.

Lemma Hebrew_answer (ptr : list byte) : answer_ok (automaticDetectionForHebrew ptr).
Proof.
  induction ptr as [|b rest IH]; cbn [automaticDetectionForHebrew];
    split_ifs; try reflexivity; exact IH.
Qed.

Lemma Turkish_answer (ptr : list byte) : answer_ok (automaticDetectionForTurkish ptr).
Proof.
  induction ptr as [|b rest IH]; cbn [automaticDetectionForTurkish];
    split_ifs; try reflexivity; exact IH.
Qed.

Lemma Japanese_answer (guessJP : list byte -> JapaneseCode) (ptr : list byte) :
  answer_ok (automaticDetectionForJapanese guessJP ptr).
Proof.
  unfold automaticDetectionForJapanese. destruct (guessJP ptr); reflexivity.
Qed.

Lemma runHeuristics_answer (guessJP : list byte -> JapaneseCode)
      (sample : list byte) (script : AutoDetectScript) :
  answer_ok (runHeuristics guessJP sample script).
Proof.
  destruct script; cbn [runHeuristics];
    auto using WesternEuropean_answer, Cyrillic_answer, Arabic_answer,
      Baltic_answer, CentralEuropean_answer, Greek_answer, Hebrew_answer,
      Turkish_answer, Japanese_answer; reflexivity.
Qed.

Lemma checkBOM_cases (data : list byte) :
  checkBOM data = ("UTF-8-BOM", true) \/ checkBOM data = ("UTF-16BE", true)
  \/ checkBOM data = ("UTF-16LE", true) \/ checkBOM data = ("", false).
Proof.
  unfold checkBOM. split_ifs; auto.
Qed.

Lemma unhinted_named (guessJP : list byte -> JapaneseCode) (data : list byte) :
  In (Encoding (unhinted_outcome guessJP data)) text_names.
Proof.
  unfold unhinted_outcome, utf8Fallback. cbv zeta.
  destruct (negb (String.eqb (automaticDetectionForWesternEuropean _) "")) eqn:Ew.
  { apply negb_String_eqb_empty in Ew.
    apply answer_ok_named; [apply WesternEuropean_answer | exact Ew]. }
  destruct (negb (String.eqb (automaticDetectionForCyrillic _) "")) eqn:Ec.
  { apply negb_String_eqb_empty in Ec.
    apply answer_ok_named; [apply Cyrillic_answer | exact Ec]. }
  destruct (negb (String.eqb (automaticDetectionForJapanese _ _) "")) eqn:Ej.
  { apply negb_String_eqb_empty in Ej.
    apply answer_ok_named; [apply Japanese_answer | exact Ej]. }
  destruct (utf8_Valid data); cbn [Encoding]; unfold text_names; simpl; auto.
Qed.

(** ** Order of the heuristic stages *)

Lemma script_eqb_eq (a b : AutoDetectScript) : script_eqb a b = true <-> a = b.
Proof.
  destruct a, b; simpl; split; intros H; try reflexivity; discriminate H.
Qed.

Lemma hint_stage_skipped (guessJP : list byte -> JapaneseCode)
      (sample : list byte) (hint : AutoDetectScript) :
  hint = ScriptNone \/ runHeuristics guessJP sample hint = "" ->
  negb (script_eqb hint ScriptNone)
  && negb (String.eqb (runHeuristics guessJP sample hint) "") = false.
Proof.
  intros [-> | ->]; [reflexivity|].
  now rewrite andb_false_r.
Qed.

Lemma hint_stage_taken (guessJP : list byte -> JapaneseCode)
      (sample : list byte) (hint : AutoDetectScript) :
  hint <> ScriptNone -> runHeuristics guessJP sample hint <> "" ->
  negb (script_eqb hint ScriptNone)
  && negb (String.eqb (runHeuristics guessJP sample hint) "") = true.
Proof.
  intros Hh Hr. apply andb_true_iff. split.
  - apply negb_true_iff. destruct (script_eqb hint ScriptNone) eqn:E; [|reflexivity].
    apply script_eqb_eq in E. contradiction.
  - now apply negb_String_eqb_empty.
Qed.

(** The text path of the detector under the spec's description of its
    input: non-empty, BOM-free, no null byte in the binary window. *)
Lemma detect_text_path (guessJP : list byte -> JapaneseCode)
      (data : list byte) (hint : AutoDetectScript) :
  data <> [] -> BOM_free data -> ~ null_within binaryWindow data ->
  EncodingDetector guessJP data hint =
    if negb (script_eqb hint ScriptNone)
       && negb (String.eqb (runHeuristics guessJP (sample_of data) hint) "")
    then mkResult (runHeuristics guessJP (sample_of data) hint)
                  AutoDetectedEncoding hint false
    else unhinted_outcome guessJP data.
Proof.
  intros Hne Hbom Hnull. apply detect_text.
  - exact Hne.
  - now apply checkBOM_BOM_free.
  - now apply isBinary_false.
Qed.

Lemma unhinted_WesternEuropean (guessJP : list byte -> JapaneseCode) (data : list byte) :
  automaticDetectionForWesternEuropean (sample_of data) <> "" ->
  unhinted_outcome guessJP data
  = mkResult (automaticDetectionForWesternEuropean (sample_of data))
             AutoDetectedEncoding WesternEuropean false.
Proof.
  intros H. unfold unhinted_outcome. cbv zeta.
  apply negb_String_eqb_empty in H. now rewrite H.
Qed.


(** What remains of [unhinted_outcome] once the Western European and
    Cyrillic heuristics are both inconclusive: the Japanese stage, then
    the UTF-8 validity check. *)
Lemma unhinted_past_Cyrillic (guessJP : list byte -> JapaneseCode) (data : list byte) :
  automaticDetectionForWesternEuropean (sample_of data) = "" ->
  automaticDetectionForCyrillic (sample_of data) = "" ->
  unhinted_outcome guessJP data
  = if negb (String.eqb (automaticDetectionForJapanese guessJP (sample_of data)) "")
    then mkResult (automaticDetectionForJapanese guessJP (sample_of data))
                  AutoDetectedEncoding Japanese false
    else utf8Fallback data.
Proof.
  intros Hw Hc. unfold unhinted_outcome. cbv zeta. rewrite Hw, Hc. reflexivity.
Qed.

Lemma unhinted_Japanese (guessJP : list byte -> JapaneseCode) (data : list byte) :
  automaticDetectionForWesternEuropean (sample_of data) = "" ->
  automaticDetectionForCyrillic (sample_of data) = "" ->
  automaticDetectionForJapanese guessJP (sample_of data) <> "" ->
  unhinted_outcome guessJP data
  = mkResult (automaticDetectionForJapanese guessJP (sample_of data))
             AutoDetectedEncoding Japanese false.
Proof.
  intros Hw Hc H. rewrite (unhinted_past_Cyrillic _ _ Hw Hc).
  apply negb_String_eqb_empty in H. now rewrite H.
Qed.

Lemma unhinted_fallback (guessJP : list byte -> JapaneseCode) (data : list byte) :
  automaticDetectionForWesternEuropean (sample_of data) = "" ->
  automaticDetectionForCyrillic (sample_of data) = "" ->
  automaticDetectionForJapanese guessJP (sample_of data) = "" ->
  unhinted_outcome guessJP data = utf8Fallback data.
Proof.
  intros Hw Hc H. rewrite (unhinted_past_Cyrillic _ _ Hw Hc), H. reflexivity.
Qed.


(** ** The final fallback *)

Lemma detect_all_inconclusive (guessJP : list byte -> JapaneseCode)
      (data : list byte) (hint : AutoDetectScript) :
  data <> [] -> BOM_free data -> ~ null_within binaryWindow data ->
  hint = ScriptNone \/ runHeuristics guessJP (sample_of data) hint = "" ->
  automaticDetectionForWesternEuropean (sample_of data) = "" ->
  automaticDetectionForCyrillic (sample_of data) = "" ->
  automaticDetectionForJapanese guessJP (sample_of data) = "" ->
  EncodingDetector guessJP data hint = utf8Fallback data.
Proof.
  intros Hne Hbom Hnull Hskip Hw Hc Hj.
  rewrite (detect_text_path guessJP data hint Hne Hbom Hnull).
  rewrite (hint_stage_skipped _ _ _ Hskip).
  now apply unhinted_fallback.
Qed.

Lemma hello_world_text_path :
  hello_world <> [] /\ BOM_free hello_world
  /\ ~ null_within binaryWindow hello_world.
Proof.
  split; [|split].
  - discriminate.
  - apply checkBOM_BOM_free. reflexivity.
  - apply isBinary_false. reflexivity.
Qed.

Lemma hello_world_Japanese_or_fallback (guessJP : list byte -> JapaneseCode) :
  EncodingDetector guessJP hello_world ScriptNone
  = if negb (String.eqb (automaticDetectionForJapanese guessJP hello_world) "")
    then mkResult (automaticDetectionForJapanese guessJP hello_world)
                  AutoDetectedEncoding Japanese false
    else mkResult "UTF-8" AutoDetectedEncoding ScriptNone false.
Proof.
  destruct hello_world_text_path as (Hne & Hbom & Hnull).
  rewrite (detect_text_path guessJP hello_world ScriptNone Hne Hbom Hnull).
  cbn [script_eqb negb andb].
  rewrite unhinted_past_Cyrillic; reflexivity.
Qed.

(** ** The Cyrillic loop *)

Lemma skipn_at_cons (i : nat) (l : list byte) :
  (i < len l)%nat -> skipn i l = at_ l i :: skipn (S i) l.
Proof.
  unfold len, at_. revert l. induction i as [|i IH]; intros [|b l] H;
    simpl in H; try lia.
  - reflexivity.
  - rewrite skipn_cons. cbn [nth]. apply IH. lia.
Qed.

Lemma cyrLoop_fold (n : nat) :
  forall (i : nat) (ptr : list byte) (c : CyrillicCounters),
    (i + n <= len ptr)%nat ->
    cyrLoop n i ptr c = cyrFold (at_ ptr (i - 1)) (firstn n (skipn i ptr)) c.
Proof.
  induction n as [|n IH]; intros i ptr c H; cbn [cyrLoop].
  - reflexivity.
  - rewrite (skipn_at_cons i ptr) by lia. rewrite firstn_cons. cbn [cyrFold].
    rewrite IH by lia. replace (S i - 1)%nat with i by lia. reflexivity.
Qed.

Lemma cyrLimit_zero (size : nat) :
  cyrLimit size cyrZero = Nat.min size cyrillicWindow.
Proof.
  unfold cyrLimit. cbn [cyrZero cp1251SmallRange koiSmallRange].
  change (0 + 0 <? 1000) with true. cbv iota.
  destruct (cyrillicWindow <? size)%nat eqn:E.
  - apply Nat.ltb_lt in E. lia.
  - apply Nat.ltb_ge in E. lia.
Qed.

Lemma firstn_min_len (k : nat) (l : list byte) :
  firstn (Nat.min (len l) k) l = firstn k l.
Proof.
  unfold len. destruct (Nat.le_ge_cases k (List.length l)) as [H|H].
  - now rewrite Nat.min_r.
  - rewrite Nat.min_l by exact H. rewrite firstn_all. symmetry.
    now apply firstn_all2.
Qed.

(** The loop of the source visits exactly the first 1000 bytes, the first
    of them only as the predecessor of the second. *)
Lemma cyrCount_scan (ptr : list byte) :
  cyrCount ptr = cyrScan (firstn cyrillicWindow ptr).
Proof.
  unfold cyrCount. cbv zeta. rewrite cyrLimit_zero.
  assert (HW : cyrillicWindow = S (cyrillicWindow - 1))
    by (unfold cyrillicWindow; lia).
  destruct ptr as [|b0 rest].
  - rewrite firstn_nil. reflexivity.
  - rewrite cyrLoop_fold by (unfold len; cbn [List.length]; lia).
    rewrite HW at 2. rewrite firstn_cons. cbn [cyrScan].
    change (at_ (b0 :: rest) (1 - 1)) with b0.
    change (skipn 1 (b0 :: rest)) with rest.
    replace (Nat.min (len (b0 :: rest)) cyrillicWindow - 1)%nat
      with (Nat.min (len rest) (cyrillicWindow - 1))
      by (unfold len; cbn [List.length]; lia).
    now rewrite firstn_min_len.
Qed.

Lemma cyrStep_total (prev p : byte) (c : CyrillicCounters) :
  bucket_total c <= bucket_total (cyrStep prev p c)
    <= bucket_total c + (if highBit p then 1 else 0).
Proof.
  destruct c as [um ks cs kst cst c51 koi ibm].
  unfold cyrStep, bucket_total, highBit. cbv zeta.
  repeat match goal with
         | |- context [if ?b then _ else _] => destruct b eqn:?
         end;
    cbn [cp1251SmallRange koiSmallRange ibm866SmallRange];
    rewrite ?andb_true_iff, ?andb_false_iff, ?orb_true_iff in *; lia.
Qed.

Lemma cyrFold_total (l : list byte) :
  forall (prev : byte) (c : CyrillicCounters),
    bucket_total (cyrFold prev l c) <= bucket_total c + Z.of_nat (highBitCount l).
Proof.
  induction l as [|p l IH]; intros prev c; cbn [cyrFold highBitCount].
  - lia.
  - specialize (IH p (cyrStep prev p c)).
    pose proof (cyrStep_total prev p c) as Hs.
    destruct (highBit p); lia.
Qed.

Lemma highBitCount_firstn (n : nat) (l : list byte) :
  (highBitCount (firstn n l) <= highBitCount l)%nat.
Proof.
  revert n. induction l as [|b l IH]; intros [|n]; cbn [firstn highBitCount];
    try lia.
  specialize (IH n). lia.
Qed.

Lemma cyrScan_total (window : list byte) :
  bucket_total (cyrScan window) <= Z.of_nat (highBitCount window).
Proof.
  destruct window as [|b0 rest]; cbn [cyrScan highBitCount].
  - reflexivity.
  - pose proof (cyrFold_total rest b0 cyrZero) as H.
    change (bucket_total cyrZero) with 0 in H. lia.
Qed.

(** The bucket total never exceeds the number of high-bit bytes. *)
Lemma cyrCount_total (ptr : list byte) :
  bucket_total (cyrCount ptr) <= Z.of_nat (highBitCount ptr).
Proof.
  rewrite cyrCount_scan.
  pose proof (cyrScan_total (firstn cyrillicWindow ptr)).
  pose proof (highBitCount_firstn cyrillicWindow ptr). lia.
Qed.

Lemma cyrDecide_few (c : CyrillicCounters) :
  bucket_total c < 8 -> cyrDecide c = "".
Proof.
  unfold cyrDecide, bucket_total. cbv zeta. intros H.
  apply Z.ltb_lt in H. now rewrite H.
Qed.

Lemma Cyrillic_few_high_bytes (sample : list byte) :
  (highBitCount sample < 8)%nat -> automaticDetectionForCyrillic sample = "".
Proof.
  intros H. apply cyrDecide_few.
  pose proof (cyrCount_total sample). lia.
Qed.

(** ** Cyrillic text in UTF-8 *)

Lemma cyrillic_letters_ind (P : list byte -> Prop) :
  P [] ->
  (forall lead cont rest,
      lead = xd0 \/ lead = xd1 -> 0x80 <= u8 cont <= 0xBF ->
      cyrillic_letters rest = true -> P rest -> P (lead :: cont :: rest)) ->
  forall l, cyrillic_letters l = true -> P l.
Proof.
  intros Hnil Hstep. fix IH 1. intros [|lead [|cont rest]] H;
    cbn [cyrillic_letters] in H; try discriminate H.
  - exact Hnil.
  - apply andb_true_iff in H. destruct H as [H Hrest].
    apply andb_true_iff in H. destruct H as [Hlead Hcont].
    apply Hstep.
    + apply orb_true_iff in Hlead. destruct Hlead as [E|E];
        apply Z.eqb_eq in E; [left | right]; apply u8_inj; exact E.
    + unfold inRange in Hcont. apply andb_true_iff in Hcont.
      destruct Hcont as [H1 H2]. apply Z.leb_le in H1, H2. lia.
    + exact Hrest.
    + apply IH. exact Hrest.
Qed.

Lemma cyrillic_letters_valid (l : list byte) :
  cyrillic_letters l = true -> utf8_Valid l = true.
Proof.
  revert l. apply (cyrillic_letters_ind (fun l => utf8_Valid l = true));
    [reflexivity|].
  intros lead cont rest Hlead Hcont _ IH.
  assert (Hc : inRange cont 0x80 0xBF = true).
  { unfold inRange. apply andb_true_iff. split; apply Z.leb_le; lia. }
  destruct Hlead as [-> | ->]; cbn [utf8_Valid]; cbv zeta;
    cbn [u8 Byte.to_N Z.of_N Z.ltb Z.compare Pos.compare Pos.compare_cont orb];
    rewrite Hc, IH; reflexivity.
Qed.

Lemma cyrillic_letters_high (l : list byte) :
  cyrillic_letters l = true -> Forall (fun b => 0x80 <= u8 b) l.
Proof.
  revert l. apply (cyrillic_letters_ind (fun l => Forall (fun b => 0x80 <= u8 b) l));
    [constructor|].
  intros lead cont rest Hlead Hcont _ IH.
  constructor; [destruct Hlead as [-> | ->]; vm_compute; discriminate|].
  constructor; [lia | exact IH].
Qed.

Lemma no_null_among_high_bytes (n : nat) (l : list byte) :
  Forall (fun b => 0x80 <= u8 b) l -> ~ null_within n l.
Proof.
  intros Hall (i & _ & Hi). apply nth_error_In in Hi.
  rewrite Forall_forall in Hall. specialize (Hall _ Hi).
  vm_compute in Hall. apply Hall. reflexivity.
Qed.

(** The rule of line 228 on the first byte pair of a sample. *)
Lemma WesternEuropean_lead_pair (lead cont : byte) (t : list byte) :
  0xc1 < u8 lead < 0xf0 -> 0x7f < u8 cont < 0xc0 ->
  automaticDetectionForWesternEuropean (lead :: cont :: t) = "UTF-8".
Proof.
  intros Hlead Hcont. unfold automaticDetectionForWesternEuropean. cbv zeta.
  change (len (lead :: cont :: t)) with (S (S (len t))).
  change (S (S (len t)) - 1)%nat with (S (len t)).
  cbn [Nat.eqb weLoop]. cbv zeta.
  change (at_ (lead :: cont :: t) 0) with lead.
  change (at_ (lead :: cont :: t) (0 + 1)) with cont.
  assert (H1 : (0x79 <? u8 lead) = true) by (apply Z.ltb_lt; lia).
  assert (H2 : (0xc1 <? u8 lead) = true) by (apply Z.ltb_lt; lia).
  assert (H3 : (u8 lead <? 0xf0) = true) by (apply Z.ltb_lt; lia).
  assert (H4 : (0x7f <? u8 cont) = true) by (apply Z.ltb_lt; lia).
  assert (H5 : (u8 cont <? 0xc0) = true) by (apply Z.ltb_lt; lia).
  rewrite H1, H2, H3, H4, H5. reflexivity.
Qed.

Lemma sample_of_pair (a b : byte) (rest : list byte) :
  sample_of (a :: b :: rest) = a :: b :: firstn (maxBuffer - 2) rest.
Proof.
  unfold sample_of.
  assert (H : maxBuffer = S (S (maxBuffer - 2))) by (unfold maxBuffer; lia).
  rewrite H at 1. reflexivity.
Qed.

Lemma highBitCount_nonempty (l : list byte) :
  (0 < highBitCount l)%nat -> l <> [].
Proof. destruct l; cbn; [lia | discriminate]. Qed.

(** ** What the Cyrillic heuristic reads *)

Lemma Cyrillic_window (a b : list byte) :
  firstn cyrillicWindow a = firstn cyrillicWindow b ->
  automaticDetectionForCyrillic a = automaticDetectionForCyrillic b.
Proof.
  intros H. unfold automaticDetectionForCyrillic.
  now rewrite !cyrCount_scan, H.
Qed.

Lemma cyrStep_view (prev prev' p : byte) (c c' : CyrillicCounters) :
  bucket_view c = bucket_view c' ->
  bucket_view (cyrStep prev p c) = bucket_view (cyrStep prev' p c').
Proof.
  destruct c as [um ks cs kst cst c51 koi ibm].
  destruct c' as [um' ks' cs' kst' cst' c51' koi' ibm'].
  unfold bucket_view. cbn [cp1251SmallRange koiSmallRange ibm866SmallRange
                           utf8Mark koiScore cp1251Score].
  intros H. injection H as -> -> -> -> -> ->.
  unfold cyrStep. cbv zeta. split_ifs; reflexivity.
Qed.

Lemma cyrFold_view (l : list byte) :
  forall (prev prev' : byte) (c c' : CyrillicCounters),
    bucket_view c = bucket_view c' ->
    bucket_view (cyrFold prev l c) = bucket_view (cyrFold prev' l c').
Proof.
  induction l as [|p l IH]; intros prev prev' c c' H; cbn [cyrFold].
  - exact H.
  - apply IH. now apply cyrStep_view.
Qed.

Lemma cyrStep_prev (prev prev' p : byte) (c : CyrillicCounters) :
  u8 p <> 0xf2 -> u8 p <> 0xd4 -> cyrStep prev p c = cyrStep prev' p c.
Proof.
  intros Hf2 Hd4. apply Z.eqb_neq in Hf2, Hd4.
  destruct c as [um ks cs kst cst c51 koi ibm].
  unfold cyrStep. cbv zeta. rewrite Hf2, Hd4. reflexivity.
Qed.

Lemma cyrCount_cons (b0 : byte) (rest : list byte) :
  cyrCount (b0 :: rest) = cyrFold b0 (firstn (cyrillicWindow - 1) rest) cyrZero.
Proof.
  rewrite cyrCount_scan.
  assert (HW : cyrillicWindow = S (cyrillicWindow - 1))
    by (unfold cyrillicWindow; lia).
  rewrite HW at 1. reflexivity.
Qed.

(** ** No index leaves the sample *)

Lemma index_at (ptr : list byte) (i : nat) :
  (i < len ptr)%nat -> index ptr i = Some (at_ ptr i).
Proof. intros H. unfold index, at_. now apply nth_error_nth'. Qed.

Lemma weLoop_checked_ok (n : nat) :
  forall (i : nat) (ptr : list byte) (k : Z),
    (i + n + 1 <= len ptr)%nat ->
    weLoop_checked n i ptr k = Some (weLoop n i ptr k).
Proof.
  induction n as [|n IH]; intros i ptr k H; cbn [weLoop_checked weLoop].
  - reflexivity.
  - rewrite !index_at by lia. cbv zeta.
    split_ifs; try reflexivity; apply IH; lia.
Qed.

Lemma WesternEuropean_checked_ok (ptr : list byte) :
  WesternEuropean_checked ptr = Some (automaticDetectionForWesternEuropean ptr).
Proof.
  unfold WesternEuropean_checked, automaticDetectionForWesternEuropean. cbv zeta.
  destruct (len ptr =? 0)%nat eqn:E; [reflexivity|].
  apply Nat.eqb_neq in E. apply weLoop_checked_ok. lia.
Qed.

Lemma cyrLoop_checked_ok (n : nat) :
  forall (i : nat) (ptr : list byte) (c : CyrillicCounters),
    (1 <= i)%nat -> (i + n <= len ptr)%nat ->
    cyrLoop_checked n i ptr c = Some (cyrLoop n i ptr c).
Proof.
  induction n as [|n IH]; intros i ptr c Hi H; cbn [cyrLoop_checked cyrLoop].
  - reflexivity.
  - rewrite !index_at by lia. apply IH; lia.
Qed.

Lemma Cyrillic_checked_ok (ptr : list byte) :
  Cyrillic_checked ptr = Some (automaticDetectionForCyrillic ptr).
Proof.
  unfold Cyrillic_checked, automaticDetectionForCyrillic, cyrCount. cbv zeta.
  rewrite cyrLimit_zero.
  destruct (Nat.eq_dec (len ptr) 0) as [E|E].
  - rewrite E. reflexivity.
  - rewrite cyrLoop_checked_ok; [reflexivity | lia |].
    assert (0 < cyrillicWindow)%nat by (unfold cyrillicWindow; lia). lia.
Qed.

(** ** The Cyrillic stage of the default order *)

Lemma weLoop_counted (n : nat) :
  forall (i : nat) (ptr : list byte) (k : Z),
    0 < k -> weLoop n i ptr k <> "".
Proof.
  induction n as [|n IH]; intros i ptr k Hk; cbn [weLoop]; cbv zeta.
  - apply Z.ltb_lt in Hk. rewrite Hk. discriminate.
  - split_ifs; try discriminate; apply IH; lia.
Qed.

(** An inconclusive Western European scan has seen no byte above 0x79. *)
Lemma weLoop_inconclusive (n : nat) :
  forall (i : nat) (ptr : list byte) (k : Z),
    0 <= k -> weLoop n i ptr k = "" ->
    forall j, (i <= j < i + n)%nat -> u8 (at_ ptr j) <= 0x79.
Proof.
  induction n as [|n IH]; intros i ptr k Hk H j Hj; [lia|].
  cbn [weLoop] in H. cbv zeta in H.
  destruct (0x79 <? u8 (at_ ptr i)) eqn:Ep.
  - exfalso. revert H. split_ifs; try discriminate.
    apply weLoop_counted. lia.
  - apply Z.ltb_ge in Ep.
    destruct (Nat.eq_dec j i) as [-> | Hne]; [exact Ep|].
    apply (IH (S i) ptr k Hk H). lia.
Qed.

Lemma WesternEuropean_inconclusive (ptr : list byte) :
  automaticDetectionForWesternEuropean ptr = "" ->
  forall j, (j + 1 < len ptr)%nat -> u8 (at_ ptr j) <= 0x79.
Proof.
  unfold automaticDetectionForWesternEuropean. cbv zeta.
  destruct (len ptr =? 0)%nat eqn:E.
  - apply Nat.eqb_eq in E. intros _ j Hj. lia.
  - intros H j Hj. apply (weLoop_inconclusive _ 0 ptr 0 (Z.le_refl 0) H). lia.
Qed.

Lemma highBitCount_last_only (l : list byte) :
  (forall j, (j + 1 < len l)%nat -> u8 (at_ l j) <= 0x79) ->
  (highBitCount l <= 1)%nat.
Proof.
  induction l as [|b l IH]; intros H; cbn [highBitCount]; [lia|].
  destruct l as [|b' l'].
  - cbn [highBitCount]. destruct (highBit b); lia.
  - assert (Hb : highBit b = false).
    { unfold highBit. apply Z.leb_gt.
      specialize (H 0%nat). change (at_ (b :: b' :: l') 0) with b in H.
      unfold len in H. cbn [List.length] in H.
      assert (u8 b <= 0x79) by (apply H; lia). lia. }
    rewrite Hb. cbn [Nat.add]. apply IH. intros j Hj.
    change (at_ (b' :: l') j) with (at_ (b :: b' :: l') (S j)).
    apply H. unfold len in *. cbn [List.length] in *. lia.
Qed.

(** With no answer from the Western European heuristic, at most the last
    byte of the sample has its top bit set: the Cyrillic stage that
    follows it in the default order is then always inconclusive. *)
Lemma Cyrillic_silent_after_WesternEuropean (sample : list byte) :
  automaticDetectionForWesternEuropean sample = "" ->
  (highBitCount sample <= 1)%nat /\ automaticDetectionForCyrillic sample = "".
Proof.
  intros H.
  assert (Hc : (highBitCount sample <= 1)%nat)
    by (apply highBitCount_last_only, WesternEuropean_inconclusive, H).
  split; [exact Hc | apply Cyrillic_few_high_bytes; lia].
Qed.

(** ** Answers of the heuristics, family by family *)

Ltac solve_name := cbn [hint_names]; simpl In; auto 8.

Lemma Arabic_names (ptr : list byte) :
  In (automaticDetectionForArabic ptr) (hint_names Arabic).
Proof.
  induction ptr as [|b rest IH]; cbn [automaticDetectionForArabic];
    split_ifs; try exact IH; solve_name.
Qed.

Lemma Baltic_names (ptr : list byte) :
  In (automaticDetectionForBaltic ptr) (hint_names Baltic).
Proof.
  induction ptr as [|b rest IH]; cbn [automaticDetectionForBaltic]; cbv zeta;
    split_ifs; try exact IH; solve_name.
Qed.

Lemma ceLoop_names (rest : list byte) :
  forall (i size : nat) (charset : string),
    charset = "" \/ charset = "cp1250" \/ charset = "iso-8859-2" ->
    In (ceLoop rest i size charset) (hint_names CentralEuropean).
Proof.
  induction rest as [|b rest IH]; intros i size charset Hc;
    cbn [ceLoop]; cbv zeta.
  - destruct Hc as [->|[->| ->]]; solve_name.
  - split_ifs; try (apply IH; auto); solve_name.
Qed.

Lemma CentralEuropean_names (ptr : list byte) :
  In (automaticDetectionForCentralEuropean ptr) (hint_names CentralEuropean).
Proof. apply ceLoop_names. now left. Qed.

Lemma Greek_names (ptr : list byte) :
  In (automaticDetectionForGreek ptr) (hint_names Greek).
Proof.
  induction ptr as [|b rest IH]; cbn [automaticDetectionForGreek];
    split_ifs; try exact IH; solve_name.
Qed.

Lemma Hebrew_names (ptr : list byte) :
  In (automaticDetectionForHebrew ptr) (hint_names Hebrew).
Proof.
  induction ptr as [|b rest IH]; cbn [automaticDetectionForHebrew];
    split_ifs; try exact IH; solve_name.
Qed.

Lemma Turkish_names (ptr : list byte) :
  In (automaticDetectionForTurkish ptr) (hint_names Turkish).
Proof.
  induction ptr as [|b rest IH]; cbn [automaticDetectionForTurkish];
    split_ifs; try exact IH; solve_name.
Qed.

Lemma weLoop_names (n : nat) :
  forall (i : nat) (ptr : list byte) (k : Z),
    weLoop n i ptr k = "" \/ In (weLoop n i ptr k) (hint_names WesternEuropean).
Proof.
  induction n as [|n IH]; intros i ptr k; cbn [weLoop]; cbv zeta;
    split_ifs; try apply IH; try (now left); right; solve_name.
Qed.

Lemma WesternEuropean_names (ptr : list byte) :
  automaticDetectionForWesternEuropean ptr = ""
  \/ In (automaticDetectionForWesternEuropean ptr) (hint_names WesternEuropean).
Proof.
  unfold automaticDetectionForWesternEuropean. cbv zeta.
  destruct (len ptr =? 0)%nat; [now left | apply weLoop_names].
Qed.

Lemma Cyrillic_names (ptr : list byte) :
  automaticDetectionForCyrillic ptr = ""
  \/ In (automaticDetectionForCyrillic ptr) (hint_names Cyrillic).
Proof.
  unfold automaticDetectionForCyrillic, cyrDecide. cbv zeta.
  split_ifs; try (now left); right; solve_name.
Qed.

Lemma Japanese_names (guessJP : list byte -> JapaneseCode) (ptr : list byte) :
  automaticDetectionForJapanese guessJP ptr = ""
  \/ In (automaticDetectionForJapanese guessJP ptr) (hint_names Japanese).
Proof.
  unfold automaticDetectionForJapanese.
  destruct (guessJP ptr); try (now left); right; solve_name.
Qed.

Lemma presence_test_names (guessJP : list byte -> JapaneseCode)
      (sample : list byte) (hint : AutoDetectScript) :
  In hint presence_tests ->
  In (runHeuristics guessJP sample hint) (hint_names hint).
Proof.
  unfold presence_tests. simpl In.
  intros [<-|[<-|[<-|[<-|[<-|[<-|[]]]]]]]; cbn [runHeuristics].
  - apply Arabic_names.
  - apply Baltic_names.
  - apply CentralEuropean_names.
  - apply Greek_names.
  - apply Hebrew_names.
  - apply Turkish_names.
Qed.

Lemma runHeuristics_names (guessJP : list byte -> JapaneseCode)
      (sample : list byte) (hint : AutoDetectScript) :
  runHeuristics guessJP sample hint = ""
  \/ In (runHeuristics guessJP sample hint) (hint_names hint).
Proof.
  destruct hint; cbn [runHeuristics]; try (now left).
  - right. apply Arabic_names.
  - right. apply Baltic_names.
  - right. apply CentralEuropean_names.
  - apply Cyrillic_names.
  - right. apply Greek_names.
  - right. apply Hebrew_names.
  - apply Japanese_names.
  - right. apply Turkish_names.
  - apply WesternEuropean_names.
Qed.

Lemma hint_names_proper (hint : AutoDetectScript) (s : string) :
  In s (hint_names hint) -> s <> "" /\ s <> "us-ascii" /\ s <> "binary".
Proof.
  destruct hint; cbn [hint_names]; simpl In; intros H;
    repeat split; intros ->; intuition discriminate.
Qed.

(** * The claims of the specification *)

(** C1: a buffer that begins with EF BB BF, FE FF or FF FE is classified
    as text with source BOM and the name "UTF-8-BOM", "UTF-16BE" or
    "UTF-16LE" respectively, whatever follows the prefix and whatever the
    hint.  In particular FE FF followed by null bytes, on which the
    null-byte scanner alone answers "binary", is UTF-16BE text: the BOM
    stage returns before the binary stage is consulted. *)
Theorem C1_BOM_short_circuits_binary_check :
  forall (guessJP : list byte -> JapaneseCode) (rest : list byte)
         (hint : AutoDetectScript),
    EncodingDetector guessJP (xef :: xbb :: xbf :: rest) hint
      = mkResult "UTF-8-BOM" BOM ScriptNone false
    /\ EncodingDetector guessJP (xfe :: xff :: rest) hint
      = mkResult "UTF-16BE" BOM ScriptNone false
    /\ EncodingDetector guessJP (xff :: xfe :: rest) hint
      = mkResult "UTF-16LE" BOM ScriptNone false
    /\ (isBinary [xfe; xff; x00; x41; x00; x42] = true
        /\ EncodingDetector guessJP [xfe; xff; x00; x41; x00; x42] hint
           = mkResult "UTF-16BE" BOM ScriptNone false).
Proof.
  intros guessJP rest hint.
  repeat split; try (apply detect_BOM; [discriminate | reflexivity]).
Qed.

(** C2: a non-empty buffer without a recognised BOM prefix that holds a
    0x00 byte among its first 8000 bytes is classified binary (name
    "binary", source default); when no 0x00 byte occurs among the first
    8000 bytes, null bytes further on do not make it binary. *)
Theorem C2_null_byte_in_window_is_binary :
  forall (guessJP : list byte -> JapaneseCode) (data : list byte)
         (hint : AutoDetectScript),
    data <> [] -> BOM_free data ->
    (null_within binaryWindow data ->
       EncodingDetector guessJP data hint
         = mkResult "binary" DefaultEncoding ScriptNone true)
    /\ (~ null_within binaryWindow data ->
       IsBinary (EncodingDetector guessJP data hint) = false).
Proof.
  intros guessJP data hint Hne Hbom. apply checkBOM_BOM_free in Hbom. split.
  - intros Hnull. apply isBinary_spec in Hnull. now apply detect_binary.
  - intros Hnull. apply isBinary_false in Hnull. now apply detect_text_not_binary.
Qed.

Lemma C2_witness :
  EncodingDetector guessJP_unknown [x41; x00; x42] Cyrillic
    = mkResult "binary" DefaultEncoding ScriptNone true
  /\ IsBinary (EncodingDetector guessJP_unknown
                 (repeat x41 binaryWindow ++ [x00]) ScriptNone) = false.
Proof.
  split.
  - apply (C2_null_byte_in_window_is_binary guessJP_unknown [x41; x00; x42] Cyrillic).
    + discriminate.
    + apply checkBOM_BOM_free. reflexivity.
    + exists 1%nat. split; [unfold binaryWindow; simpl; lia | reflexivity].
  - apply (C2_null_byte_in_window_is_binary guessJP_unknown
             (repeat x41 binaryWindow ++ [x00]) ScriptNone).
    + vm_compute. discriminate.
    + apply checkBOM_BOM_free. vm_compute. reflexivity.
    + apply isBinary_false. vm_compute. reflexivity.
Defined.

(** C3: every result is either binary with the name "binary", or text with
    a non-empty name; the text names are moreover drawn from
    [text_names], none of which is "binary". *)
Theorem C3_result_invariant :
  forall (guessJP : list byte -> JapaneseCode) (data : list byte)
         (hint : AutoDetectScript),
    (IsBinary (EncodingDetector guessJP data hint) = true
     /\ Encoding (EncodingDetector guessJP data hint) = "binary")
    \/ (IsBinary (EncodingDetector guessJP data hint) = false
        /\ Encoding (EncodingDetector guessJP data hint) <> ""
        /\ Encoding (EncodingDetector guessJP data hint) <> "binary"
        /\ In (Encoding (EncodingDetector guessJP data hint)) text_names).
Proof.
  intros guessJP data hint.
  assert (Hnamed : forall r, IsBinary r = false -> In (Encoding r) text_names ->
            IsBinary r = false /\ Encoding r <> "" /\ Encoding r <> "binary"
            /\ In (Encoding r) text_names).
  { intros r Hb Hin. destruct (text_names_proper _ Hin). auto. }
  destruct data as [|b data'] eqn:Edata.
  { right. rewrite detect_empty. apply Hnamed; [reflexivity|].
    unfold text_names; simpl; auto. }
  rewrite <- Edata. assert (Hne : data <> []) by (subst; discriminate).
  clear Edata.
  destruct (checkBOM_cases data) as [H|[H|[H|H]]];
    try (right; rewrite (detect_BOM guessJP data hint _ Hne H);
         apply Hnamed; [reflexivity | unfold text_names; simpl; auto 10]).
  destruct (isBinary data) eqn:Hbin.
  { left. rewrite (detect_binary guessJP data hint Hne H Hbin). auto. }
  right. rewrite (detect_text guessJP data hint Hne H Hbin).
  destruct (negb (script_eqb hint ScriptNone)); cbn [andb].
  - destruct (negb (String.eqb _ "")) eqn:Eh.
    + apply negb_String_eqb_empty in Eh. apply Hnamed; [reflexivity|].
      apply answer_ok_named; [apply runHeuristics_answer | exact Eh].
    + apply Hnamed; [apply unhinted_not_binary | apply unhinted_named].
  - apply Hnamed; [apply unhinted_not_binary | apply unhinted_named].
Qed.

(** C4: [IsText] holds exactly of the empty buffer and of the buffers with
    no 0x00 byte among their first 8000 bytes.  It is not the classifier's
    text flag: FE FF 00 is rejected by [IsText] and classified as text by
    [EncodingDetector]. *)
Theorem C4_IsText_is_the_null_byte_test :
  (forall data : list byte,
      IsText data = true <-> data = [] \/ ~ null_within binaryWindow data)
  /\ IsText [xfe; xff; x00] = false
  /\ (forall (guessJP : list byte -> JapaneseCode) (hint : AutoDetectScript),
        IsBinary (EncodingDetector guessJP [xfe; xff; x00] hint) = false).
Proof.
  split; [|split].
  - intros data. unfold IsText.
    destruct (len data =? 0)%nat eqn:E.
    + apply len_zero in E. split; auto.
    + rewrite negb_true_iff, isBinary_false. split; [auto|].
      intros [->|H]; [discriminate E | exact H].
  - reflexivity.
  - intros guessJP hint.
    rewrite (detect_BOM guessJP [xfe; xff; x00] hint "UTF-16BE");
      [reflexivity | discriminate | reflexivity].
Qed.



(** C6, as stated, fails: "hello world" is valid UTF-8, so the fallback
    overwrites the default.  With a Japanese sub-engine that has no answer
    the result is UTF-8 with source heuristic; whatever that sub-engine
    answers, the result never carries the name us-ascii nor the source
    default.  The empty buffer shows the other side: it is valid UTF-8 and
    keeps us-ascii/default, so the equivalence of the claim needs a
    non-empty buffer. *)
Lemma C6_counterexample :
  EncodingDetector guessJP_unknown hello_world ScriptNone
    = mkResult "UTF-8" AutoDetectedEncoding ScriptNone false
  /\ ~ (exists guessJP : list byte -> JapaneseCode,
          Encoding (EncodingDetector guessJP hello_world ScriptNone) = "us-ascii"
          \/ Source (EncodingDetector guessJP hello_world ScriptNone) = DefaultEncoding)
  /\ (utf8_Valid [] = true
      /\ EncodingDetector guessJP_unknown [] ScriptNone
         = mkResult "us-ascii" DefaultEncoding ScriptNone false).
Proof.
  split; [reflexivity | split; [|split; reflexivity]].
  intros [guessJP H]. rewrite hello_world_Japanese_or_fallback in H.
  unfold automaticDetectionForJapanese in H.
  destruct (guessJP hello_world); cbn in H; destruct H; discriminate.
Qed.

(** C6 (amended): "hello world" with no hint is classified UTF-8, source
    heuristic, not binary, whenever the Japanese sub-engine is inconclusive
    on it; and for every non-empty, BOM-free buffer with no null byte in
    the binary window on which every heuristic consulted is inconclusive,
    the default us-ascii/default stands if and only if the whole buffer is
    not valid UTF-8, and the result is UTF-8 with source heuristic if it
    is valid. *)
Theorem C6_fallback_overwrites_default_on_valid_UTF8 :
  (forall guessJP : list byte -> JapaneseCode,
      automaticDetectionForJapanese guessJP hello_world = "" ->
      EncodingDetector guessJP hello_world ScriptNone
        = mkResult "UTF-8" AutoDetectedEncoding ScriptNone false)
  /\ (forall (guessJP : list byte -> JapaneseCode) (data : list byte)
             (hint : AutoDetectScript),
        data <> [] -> BOM_free data -> ~ null_within binaryWindow data ->
        hint = ScriptNone \/ runHeuristics guessJP (sample_of data) hint = "" ->
        automaticDetectionForWesternEuropean (sample_of data) = "" ->
        automaticDetectionForCyrillic (sample_of data) = "" ->
        automaticDetectionForJapanese guessJP (sample_of data) = "" ->
        (EncodingDetector guessJP data hint
           = mkResult "us-ascii" DefaultEncoding ScriptNone false
         <-> utf8_Valid data = false)
        /\ (utf8_Valid data = true ->
            EncodingDetector guessJP data hint
              = mkResult "UTF-8" AutoDetectedEncoding ScriptNone false)).
Proof.
  split.
  - intros guessJP Hj. rewrite hello_world_Japanese_or_fallback, Hj. reflexivity.
  - intros guessJP data hint Hne Hbom Hnull Hskip Hw Hc Hj.
    rewrite (detect_all_inconclusive guessJP data hint Hne Hbom Hnull Hskip Hw Hc Hj).
    unfold utf8Fallback. destruct (utf8_Valid data); split;
      try split; intros H; try reflexivity; discriminate H.
Qed.

Lemma C6_witness :
  EncodingDetector guessJP_unknown hello_world ScriptNone
    = mkResult "UTF-8" AutoDetectedEncoding ScriptNone false
  /\ (EncodingDetector guessJP_unknown [x63; x61; x66; xe9] ScriptNone
        = mkResult "us-ascii" DefaultEncoding ScriptNone false
      <-> utf8_Valid [x63; x61; x66; xe9] = false).
Proof.
  split.
  - apply (proj1 C6_fallback_overwrites_default_on_valid_UTF8 guessJP_unknown).
    reflexivity.
  - apply (proj2 C6_fallback_overwrites_default_on_valid_UTF8 guessJP_unknown
             [x63; x61; x66; xe9] ScriptNone).
    + discriminate.
    + apply checkBOM_BOM_free. reflexivity.
    + apply isBinary_false. reflexivity.
    + left. reflexivity.
    + reflexivity.
    + reflexivity.
    + reflexivity.
Defined.

(** C7, as stated, fails on the Russian "privetmir" (UTF-8, nine
    Cyrillic letters, eighteen high-bit bytes): the buffer meets every condition of the
    claim and the Cyrillic heuristic would answer "UTF-8" on it, but with
    no hint the Western European heuristic is consulted first and decides;
    the script of the result is WesternEuropean, whatever the Japanese
    sub-engine. *)
Lemma C7_counterexample :
  (cyrillic_letters privet_mir = true /\ utf8_Valid privet_mir = true
   /\ highBitCount privet_mir = 18%nat
   /\ automaticDetectionForCyrillic privet_mir = "UTF-8")
  /\ EncodingDetector guessJP_unknown privet_mir ScriptNone
     = mkResult "UTF-8" AutoDetectedEncoding WesternEuropean false
  /\ ~ (exists guessJP : list byte -> JapaneseCode,
          Script (EncodingDetector guessJP privet_mir ScriptNone) = Cyrillic).
Proof.
  split; [repeat split | split; [reflexivity|]].
  intros [guessJP H].
  assert (E : EncodingDetector guessJP privet_mir ScriptNone
              = mkResult "UTF-8" AutoDetectedEncoding WesternEuropean false)
    by reflexivity.
  rewrite E in H. discriminate H.
Qed.

(** C7 (amended): a buffer that is valid UTF-8, made only of Cyrillic
    letters in two-byte sequences with lead byte 0xD0 or 0xD1, and holding
    at least 8 high-bit bytes, is classified with no hint as "UTF-8",
    source heuristic, by the Western European heuristic (a lead byte in
    0xC2..0xEF followed by a continuation byte, found on the first byte
    pair); the script of the result is WesternEuropean. *)
Theorem C7_Cyrillic_UTF8_decided_by_WesternEuropean :
  forall (guessJP : list byte -> JapaneseCode) (data : list byte),
    cyrillic_letters data = true -> utf8_Valid data = true ->
    (8 <= highBitCount data)%nat ->
    automaticDetectionForWesternEuropean (sample_of data) = "UTF-8"
    /\ EncodingDetector guessJP data ScriptNone
       = mkResult "UTF-8" AutoDetectedEncoding WesternEuropean false.
Proof.
  intros guessJP data Hcyr _ Hhigh.
  assert (Hne : data <> []) by (apply highBitCount_nonempty; lia).
  pose proof (no_null_among_high_bytes binaryWindow data
                (cyrillic_letters_high data Hcyr)) as Hnull.
  revert data Hcyr Hhigh Hne Hnull.
  apply (cyrillic_letters_ind
           (fun data =>
              (8 <= highBitCount data)%nat -> data <> [] ->
              ~ null_within binaryWindow data ->
              automaticDetectionForWesternEuropean (sample_of data) = "UTF-8"
              /\ EncodingDetector guessJP data ScriptNone
                 = mkResult "UTF-8" AutoDetectedEncoding WesternEuropean false));
    [congruence|].
  intros lead cont rest Hlead Hcont _ _ _ Hne Hnull.
  assert (Hl : 0xc1 < u8 lead < 0xf0)
    by (destruct Hlead as [-> | ->]; vm_compute; split; reflexivity).
  assert (Hw : automaticDetectionForWesternEuropean (sample_of (lead :: cont :: rest))
               = "UTF-8").
  { rewrite sample_of_pair. apply WesternEuropean_lead_pair; [exact Hl | lia]. }
  split; [exact Hw|].
  assert (Hbom : BOM_free (lead :: cont :: rest)).
  { apply checkBOM_BOM_free. destruct Hlead as [-> | ->]; reflexivity. }
  rewrite (detect_text_path guessJP _ ScriptNone Hne Hbom Hnull).
  cbn [script_eqb negb andb].
  rewrite unhinted_WesternEuropean; rewrite Hw; [reflexivity | discriminate].
Qed.

Lemma C7_witness :
  EncodingDetector guessJP_unknown privet_mir ScriptNone
    = mkResult "UTF-8" AutoDetectedEncoding WesternEuropean false.
Proof.
  apply (C7_Cyrillic_UTF8_decided_by_WesternEuropean guessJP_unknown privet_mir).
  - reflexivity.
  - reflexivity.
  - cbn. lia.
Defined.

(** C8, as stated, fails on the six bytes 20 E4 E0 20 6F 6B, a
    Windows-1251 text with two high-bit bytes.  The Cyrillic heuristic is
    inconclusive on it, as claimed, but the classification that consulted
    it, with the hint Cyrillic, does not go on to the UTF-8 validity
    check: the Western European heuristic comes next and answers
    iso-8859-15, where the validity check would have left us-ascii with
    source default.  Without a hint the result is the same, the Western
    European heuristic answering first; and neither depends on the
    Japanese sub-engine. *)
Lemma C8_counterexample :
  (highBitCount da_ok_cp1251 = 2%nat
   /\ automaticDetectionForCyrillic (sample_of da_ok_cp1251) = "")
  /\ EncodingDetector guessJP_unknown da_ok_cp1251 Cyrillic
     = mkResult "iso-8859-15" AutoDetectedEncoding WesternEuropean false
  /\ EncodingDetector guessJP_unknown da_ok_cp1251 ScriptNone
     = mkResult "iso-8859-15" AutoDetectedEncoding WesternEuropean false
  /\ utf8Fallback da_ok_cp1251
     = mkResult "us-ascii" DefaultEncoding ScriptNone false
  /\ ~ (exists guessJP : list byte -> JapaneseCode,
          EncodingDetector guessJP da_ok_cp1251 Cyrillic = utf8Fallback da_ok_cp1251
          \/ EncodingDetector guessJP da_ok_cp1251 ScriptNone
               = utf8Fallback da_ok_cp1251).
Proof.
  split; [split; reflexivity|].
  split; [reflexivity|]. split; [reflexivity|]. split; [reflexivity|].
  intros [guessJP [H | H]];
    change (EncodingDetector guessJP da_ok_cp1251 Cyrillic)
      with (mkResult "iso-8859-15" AutoDetectedEncoding WesternEuropean false) in H;
    change (EncodingDetector guessJP da_ok_cp1251 ScriptNone)
      with (mkResult "iso-8859-15" AutoDetectedEncoding WesternEuropean false) in H;
    discriminate H.
Qed.

(** C8 (amended): a sample with fewer than 8 high-bit bytes leaves the
    Cyrillic heuristic inconclusive.  A classification that consults that
    heuristic on such a sample, as the hinted heuristic or in the default
    order, never commits to a Cyrillic code page: its script is not
    Cyrillic and its name is none of ibm866, cp1251, koi8-u.  Its result
    is the answer of the Western European heuristic when that has one,
    otherwise the answer of the Japanese heuristic when that has one, and
    only when both are inconclusive the outcome of the UTF-8 validity
    check. *)
Theorem C8_below_8_high_bytes_no_Cyrillic_code_page :
  (forall sample : list byte,
      (highBitCount sample < 8)%nat -> automaticDetectionForCyrillic sample = "")
  /\ (forall (guessJP : list byte -> JapaneseCode) (data : list byte)
             (hint : AutoDetectScript),
        data <> [] -> BOM_free data -> ~ null_within binaryWindow data ->
        (highBitCount (sample_of data) < 8)%nat ->
        hint = Cyrillic \/ hint = ScriptNone
        \/ runHeuristics guessJP (sample_of data) hint = "" ->
        (Script (EncodingDetector guessJP data hint) <> Cyrillic
         /\ ~ In (Encoding (EncodingDetector guessJP data hint))
                 ["ibm866"; "cp1251"; "koi8-u"])
        /\ (automaticDetectionForWesternEuropean (sample_of data) <> "" ->
            EncodingDetector guessJP data hint
            = mkResult (automaticDetectionForWesternEuropean (sample_of data))
                       AutoDetectedEncoding WesternEuropean false)
        /\ (automaticDetectionForWesternEuropean (sample_of data) = "" ->
            automaticDetectionForJapanese guessJP (sample_of data) <> "" ->
            EncodingDetector guessJP data hint
            = mkResult (automaticDetectionForJapanese guessJP (sample_of data))
                       AutoDetectedEncoding Japanese false)
        /\ (automaticDetectionForWesternEuropean (sample_of data) = "" ->
            automaticDetectionForJapanese guessJP (sample_of data) = "" ->
            EncodingDetector guessJP data hint = utf8Fallback data)).
Proof.
  split; [exact Cyrillic_few_high_bytes|].
  intros guessJP data hint Hne Hbom Hnull Hfew Hhint.
  pose proof (Cyrillic_few_high_bytes _ Hfew) as Hc.
  assert (Hskip : hint = ScriptNone
                  \/ runHeuristics guessJP (sample_of data) hint = "").
  { destruct Hhint as [-> | [H | H]]; [right; exact Hc | now left | now right]. }
  assert (Hd : EncodingDetector guessJP data hint = unhinted_outcome guessJP data).
  { rewrite (detect_text_path guessJP data hint Hne Hbom Hnull).
    now rewrite (hint_stage_skipped _ _ _ Hskip). }
  assert (Hw : automaticDetectionForWesternEuropean (sample_of data) <> "" ->
               EncodingDetector guessJP data hint
               = mkResult (automaticDetectionForWesternEuropean (sample_of data))
                          AutoDetectedEncoding WesternEuropean false).
  { intros H. rewrite Hd. now apply unhinted_WesternEuropean. }
  assert (Hj : automaticDetectionForWesternEuropean (sample_of data) = "" ->
               automaticDetectionForJapanese guessJP (sample_of data) <> "" ->
               EncodingDetector guessJP data hint
               = mkResult (automaticDetectionForJapanese guessJP (sample_of data))
                          AutoDetectedEncoding Japanese false).
  { intros H1 H2. rewrite Hd. now apply unhinted_Japanese. }
  assert (Hu : automaticDetectionForWesternEuropean (sample_of data) = "" ->
               automaticDetectionForJapanese guessJP (sample_of data) = "" ->
               EncodingDetector guessJP data hint = utf8Fallback data).
  { intros H1 H2. rewrite Hd. now apply unhinted_fallback. }
  split; [|split; [exact Hw | split; [exact Hj | exact Hu]]].
  destruct (string_dec (automaticDetectionForWesternEuropean (sample_of data)) "")
    as [Ew | Ew].
  - destruct (string_dec (automaticDetectionForJapanese guessJP (sample_of data)) "")
      as [Ej | Ej].
    + rewrite (Hu Ew Ej). unfold utf8Fallback.
      destruct (utf8_Valid data); cbn [Script Encoding]; simpl In;
        split; [discriminate | intuition discriminate
               | discriminate | intuition discriminate].
    + rewrite (Hj Ew Ej). cbn [Script Encoding]. split; [discriminate|].
      destruct (Japanese_names guessJP (sample_of data)) as [E | E];
        [contradiction|].
      cbn [hint_names] in E. simpl In in *. intuition congruence.
  - rewrite (Hw Ew). cbn [Script Encoding]. split; [discriminate|].
    destruct (WesternEuropean_names (sample_of data)) as [E | E];
      [contradiction|].
    cbn [hint_names] in E. simpl In in *. intuition congruence.
Qed.

Lemma C8_witness :
  automaticDetectionForCyrillic [x41; xee; xe0; xe1; xe2; xe3; xe4; xe5] = ""
  /\ EncodingDetector guessJP_unknown da_ok_cp1251 Cyrillic
     = mkResult "iso-8859-15" AutoDetectedEncoding WesternEuropean false
  /\ EncodingDetector guessJP_unknown [x41; x42; xe0] Cyrillic
     = utf8Fallback [x41; x42; xe0].
Proof.
  split; [|split].
  - apply (proj1 C8_below_8_high_bytes_no_Cyrillic_code_page).
    cbn. lia.
  - refine (proj1 (proj2 (proj2 C8_below_8_high_bytes_no_Cyrillic_code_page
              guessJP_unknown da_ok_cp1251 Cyrillic _ _ _ _ _)) _).
    + discriminate.
    + apply checkBOM_BOM_free. reflexivity.
    + apply isBinary_false. reflexivity.
    + cbn. lia.
    + left. reflexivity.
    + discriminate.
  - refine (proj2 (proj2 (proj2 (proj2 C8_below_8_high_bytes_no_Cyrillic_code_page
              guessJP_unknown [x41; x42; xe0] Cyrillic _ _ _ _ _))) _ _).
    + discriminate.
    + apply checkBOM_BOM_free. reflexivity.
    + apply isBinary_false. reflexivity.
    + cbn. lia.
    + left. reflexivity.
    + reflexivity.
    + reflexivity.
Defined.

(** C9: on the empty buffer the quick predicate answers "text" and the
    classifier returns us-ascii, source default, not binary, for every
    hint: the length test of line 86 precedes every other stage.  Every
    input yields a result: the embedding is a total function, and the two
    loops that index the sample never read outside it (their checked
    versions never reach the out-of-range case). *)
Theorem C9_empty_buffer :
  forall (guessJP : list byte -> JapaneseCode) (hint : AutoDetectScript),
    IsText [] = true
    /\ EncodingDetector guessJP [] hint
       = mkResult "us-ascii" DefaultEncoding ScriptNone false
    /\ (forall ptr : list byte,
          WesternEuropean_checked ptr
            = Some (automaticDetectionForWesternEuropean ptr)
          /\ Cyrillic_checked ptr = Some (automaticDetectionForCyrillic ptr)).
Proof.
  intros guessJP hint. split; [reflexivity | split; [reflexivity|]].
  intros ptr. split.
  - apply WesternEuropean_checked_ok.
  - apply Cyrillic_checked_ok.
Qed.

(** C10, as stated, fails: [sample_f1] and [sample_41] have the same
    length and the same bytes at every index from 1 on, yet the heuristic
    answers cp1251 on the first and koi8-u on the second.  The byte at
    index 0 is read as [ptr[i-1]] when [i = 1]: F1 before F2 counts a
    cp1251 sentence marker, which cancels the +10 bonus of KOI8. *)
Lemma C10_counterexample :
  tl sample_f1 = tl sample_41
  /\ automaticDetectionForCyrillic sample_f1 = "cp1251"
  /\ automaticDetectionForCyrillic sample_41 = "koi8-u".
Proof. repeat split. Qed.

(** C10 (amended): the Cyrillic heuristic's result depends only on the
    bytes at indices 0 through min(len, 1000) - 1.  The limit is always
    min(len, 1000), the guard comparing counters that are still zero;
    samples with the same first 1000 bytes get the same answer.  The byte
    at index 0 is counted in no range bucket, UTF-8 mark or letter score;
    it is only read as the predecessor of the byte at index 1, so changing
    it cannot change the answer unless that byte is 0xF2 or 0xD4. *)
Theorem C10_Cyrillic_reads_the_first_1000_bytes :
  (forall ptr : list byte,
      cyrLimit (len ptr) cyrZero = Nat.min (len ptr) cyrillicWindow)
  /\ (forall a b : list byte,
        firstn cyrillicWindow a = firstn cyrillicWindow b ->
        automaticDetectionForCyrillic a = automaticDetectionForCyrillic b)
  /\ (forall (b0 b0' : byte) (rest : list byte),
        bucket_view (cyrCount (b0 :: rest)) = bucket_view (cyrCount (b0' :: rest)))
  /\ (forall (b0 b0' b1 : byte) (rest : list byte),
        u8 b1 <> 0xf2 -> u8 b1 <> 0xd4 ->
        automaticDetectionForCyrillic (b0 :: b1 :: rest)
        = automaticDetectionForCyrillic (b0' :: b1 :: rest)).
Proof.
  split; [|split; [|split]].
  - intros ptr. apply cyrLimit_zero.
  - exact Cyrillic_window.
  - intros b0 b0' rest. rewrite !cyrCount_cons. now apply cyrFold_view.
  - intros b0 b0' b1 rest Hf2 Hd4. unfold automaticDetectionForCyrillic.
    rewrite !cyrCount_cons.
    assert (HW : (cyrillicWindow - 1 = S (cyrillicWindow - 2))%nat)
      by (unfold cyrillicWindow; lia).
    rewrite HW, firstn_cons. cbn [cyrFold].
    now rewrite (cyrStep_prev b0 b0' b1 cyrZero Hf2 Hd4).
Qed.

Lemma C10_witness :
  automaticDetectionForCyrillic (repeat xe0 cyrillicWindow ++ [xee; xee])
  = automaticDetectionForCyrillic (repeat xe0 cyrillicWindow ++ [xcf])
  /\ automaticDetectionForCyrillic (xf1 :: xee :: tl sample_f1)
     = automaticDetectionForCyrillic (x41 :: xee :: tl sample_f1).
Proof.
  split.
  - apply (proj1 (proj2 C10_Cyrillic_reads_the_first_1000_bytes)).
    vm_compute. reflexivity.
  - apply (proj2 (proj2 (proj2 C10_Cyrillic_reads_the_first_1000_bytes)));
      vm_compute; discriminate.
Defined.

(** * Further properties of the code *)

(** ** Answers of the heuristics *)

(** X1: every heuristic answers only with names of its own family, or not
    at all; the six presence tests (Arabic, Baltic, Central European,
    Greek, Hebrew, Turkish) are never inconclusive, on any sample, the
    empty one included. *)
Theorem X1_heuristics_answer_within_their_family :
  forall (guessJP : list byte -> JapaneseCode) (sample : list byte)
         (hint : AutoDetectScript),
    (runHeuristics guessJP sample hint = ""
     \/ In (runHeuristics guessJP sample hint) (hint_names hint))
    /\ (In (automaticDetectionForArabic sample) ["cp1256"; "iso-8859-6"]
        /\ In (automaticDetectionForBaltic sample) ["cp1257"; "iso-8859-13"]
        /\ In (automaticDetectionForCentralEuropean sample)
              ["ibm852"; "cp1250"; "iso-8859-2"; "iso-8859-3"]
        /\ In (automaticDetectionForGreek sample) ["cp1253"; "iso-8859-7"]
        /\ In (automaticDetectionForHebrew sample) ["cp1255"; "iso-8859-8-i"]
        /\ In (automaticDetectionForTurkish sample) ["cp1254"; "iso-8859-9"]).
Proof.
  intros guessJP sample hint. split; [apply runHeuristics_names|].
  repeat split.
  - apply Arabic_names.
  - apply Baltic_names.
  - apply CentralEuropean_names.
  - apply Greek_names.
  - apply Hebrew_names.
  - apply Turkish_names.
Qed.

(** ** The paths through the detector *)

Lemma checkBOM_table (data : list byte) (name : string) :
  checkBOM data = (name, true)
  <-> exists prefix, In (prefix, name) BOM_table /\ starts_with prefix data.
Proof.
  unfold checkBOM, BOM_table. split.
  - destruct (bytes_HasPrefix data [xef; xbb; xbf]) eqn:E1;
      [|destruct (bytes_HasPrefix data [xfe; xff]) eqn:E2;
        [|destruct (bytes_HasPrefix data [xff; xfe]) eqn:E3]];
      intros H; try discriminate H; injection H as <-;
      eexists; (split; [|apply bytes_HasPrefix_spec; eassumption]);
      simpl In; auto.
  - intros (prefix & Hin & [rest ->]). simpl In in Hin.
    destruct Hin as [E|[E|[E|[]]]]; injection E as <- <-; reflexivity.
Qed.

Lemma starts_with_nonempty (prefix data : list byte) (name : string) :
  In (prefix, name) BOM_table -> starts_with prefix data -> data <> [].
Proof.
  unfold BOM_table. simpl In. intros Hin [rest ->].
  destruct Hin as [E|[E|[E|[]]]]; injection E as <- <-; discriminate.
Qed.

Lemma hint_skipped_dec (guessJP : list byte -> JapaneseCode)
      (data : list byte) (hint : AutoDetectScript) :
  hint_skipped guessJP data hint
  \/ (hint <> ScriptNone /\ runHeuristics guessJP (sample_of data) hint <> "").
Proof.
  unfold hint_skipped.
  destruct (script_eqb hint ScriptNone) eqn:Eh.
  - apply script_eqb_eq in Eh. auto.
  - destruct (String.eqb (runHeuristics guessJP (sample_of data) hint) "") eqn:Er.
    + apply String.eqb_eq in Er. auto.
    + apply String.eqb_neq in Er. right. split; [|exact Er].
      intros ->. discriminate Eh.
Qed.

(** Every call of the detector follows one of the paths. *)
Lemma detect_classified (guessJP : list byte -> JapaneseCode)
      (data : list byte) (hint : AutoDetectScript) :
  classified guessJP data hint (EncodingDetector guessJP data hint).
Proof.
  destruct data as [|b0 data'] eqn:Edata; [now apply by_empty|].
  rewrite <- Edata. assert (Hne : data <> []) by (subst; discriminate).
  clear Edata b0 data'.
  destruct (checkBOM data) as [name ok] eqn:Hbom. destruct ok.
  { rewrite (detect_BOM guessJP data hint name Hne Hbom).
    apply checkBOM_table in Hbom. destruct Hbom as (prefix & Hin & Hs).
    now apply (by_BOM guessJP data hint prefix name). }
  assert (Hname : name = "").
  { destruct (checkBOM_cases data) as [H|[H|[H|H]]]; congruence. }
  subst name.
  assert (Hfree : BOM_free data) by now apply checkBOM_BOM_free.
  destruct (isBinary data) eqn:Hbin.
  { rewrite (detect_binary guessJP data hint Hne Hbom Hbin).
    apply by_null; try assumption. now apply isBinary_spec. }
  assert (Hnull : ~ null_within binaryWindow data) by now apply isBinary_false.
  assert (Htext : text_path data) by (unfold text_path; auto).
  rewrite (detect_text_path guessJP data hint Hne Hfree Hnull).
  destruct (hint_skipped_dec guessJP data hint) as [Hskip | [Hh Hr]].
  2: { rewrite (hint_stage_taken _ _ _ Hh Hr). now apply by_hint. }
  rewrite (hint_stage_skipped _ _ _ Hskip).
  destruct (string_dec (automaticDetectionForWesternEuropean (sample_of data)) "")
    as [Hw | Hw].
  2: { rewrite (unhinted_WesternEuropean _ _ Hw). now apply by_WesternEuropean. }
  destruct (Cyrillic_silent_after_WesternEuropean _ Hw) as [_ Hc].
  destruct (string_dec (automaticDetectionForJapanese guessJP (sample_of data)) "")
    as [Hj | Hj].
  2: { rewrite (unhinted_Japanese _ _ Hw Hc Hj). now apply by_Japanese. }
  rewrite (unhinted_fallback _ _ Hw Hc Hj). unfold utf8Fallback.
  destruct (utf8_Valid data) eqn:Hv.
  - now apply by_valid_UTF8.
  - now apply by_default.
Qed.

(** The paths exclude one another: a result reached by a path is the
    detector's. *)
Lemma classified_detect (guessJP : list byte -> JapaneseCode)
      (data : list byte) (hint : AutoDetectScript) (r : DetectorResult) :
  classified guessJP data hint r -> EncodingDetector guessJP data hint = r.
Proof.
  intros H. destruct H as
      [ He | prefix name Hin Hs | Hne Hfree Hnull
      | (Hne & Hfree & Hnull) Hh Hr
      | (Hne & Hfree & Hnull) Hskip Hw
      | (Hne & Hfree & Hnull) Hskip Hw Hj
      | (Hne & Hfree & Hnull) Hskip Hw Hj Hv
      | (Hne & Hfree & Hnull) Hskip Hw Hj Hv ].
  - subst data. reflexivity.
  - apply detect_BOM.
    + exact (starts_with_nonempty prefix data name Hin Hs).
    + apply checkBOM_table. now exists prefix.
  - apply detect_binary; [exact Hne | now apply checkBOM_BOM_free
                          | now apply isBinary_spec].
  - rewrite (detect_text_path guessJP data hint Hne Hfree Hnull).
    now rewrite (hint_stage_taken _ _ _ Hh Hr).
  - rewrite (detect_text_path guessJP data hint Hne Hfree Hnull).
    rewrite (hint_stage_skipped _ _ _ Hskip).
    now apply unhinted_WesternEuropean.
  - rewrite (detect_text_path guessJP data hint Hne Hfree Hnull).
    rewrite (hint_stage_skipped _ _ _ Hskip).
    destruct (Cyrillic_silent_after_WesternEuropean _ Hw) as [_ Hc].
    now apply unhinted_Japanese.
  - rewrite (detect_all_inconclusive guessJP data hint Hne Hfree Hnull Hskip Hw
               (proj2 (Cyrillic_silent_after_WesternEuropean _ Hw)) Hj).
    unfold utf8Fallback. now rewrite Hv.
  - rewrite (detect_all_inconclusive guessJP data hint Hne Hfree Hnull Hskip Hw
               (proj2 (Cyrillic_silent_after_WesternEuropean _ Hw)) Hj).
    unfold utf8Fallback. now rewrite Hv.
Qed.

(** X2: the detector returns by exactly one of eight paths: empty buffer,
    byte-order mark, null byte, hinted heuristic, Western European
    heuristic, Japanese heuristic, valid UTF-8, default.  There is no path
    through the Cyrillic heuristic of the default order: whenever the
    Western European heuristic is inconclusive, so is the Cyrillic one. *)
Theorem X2_paths_of_the_detector :
  forall (guessJP : list byte -> JapaneseCode) (data : list byte)
         (hint : AutoDetectScript) (r : DetectorResult),
    classified guessJP data hint r <-> EncodingDetector guessJP data hint = r.
Proof.
  intros guessJP data hint r. split.
  - apply classified_detect.
  - intros <-. apply detect_classified.
Qed.

(** ** Consequences for the fields of the result *)

Lemma isBinary_nil : isBinary [] = false.
Proof. reflexivity. Qed.

Lemma IsText_isBinary (data : list byte) : IsText data = negb (isBinary data).
Proof.
  unfold IsText. destruct (len data =? 0)%nat eqn:E; [|reflexivity].
  apply len_zero in E. subst data. reflexivity.
Qed.

Lemma hinted_answer_named (guessJP : list byte -> JapaneseCode)
      (sample : list byte) (hint : AutoDetectScript) :
  runHeuristics guessJP sample hint <> "" ->
  In (runHeuristics guessJP sample hint) (hint_names hint).
Proof.
  intros H. destruct (runHeuristics_names guessJP sample hint) as [E|E];
    [contradiction | exact E].
Qed.

Lemma WesternEuropean_answer_named (sample : list byte) :
  automaticDetectionForWesternEuropean sample <> "" ->
  In (automaticDetectionForWesternEuropean sample) (hint_names WesternEuropean).
Proof.
  intros H. destruct (WesternEuropean_names sample) as [E|E];
    [contradiction | exact E].
Qed.

Lemma Japanese_answer_named (guessJP : list byte -> JapaneseCode) (sample : list byte) :
  automaticDetectionForJapanese guessJP sample <> "" ->
  In (automaticDetectionForJapanese guessJP sample) (hint_names Japanese).
Proof.
  intros H. destruct (Japanese_names guessJP sample) as [E|E];
    [contradiction | exact E].
Qed.

(** X3: with one of the six presence-test hints the hint alone decides
    every buffer that reaches the heuristics: the result carries a name of
    that family, the source heuristic and the hint as script; the default
    heuristics and the UTF-8 validity check are never consulted. *)
Theorem X3_presence_test_hint_always_decides :
  forall (guessJP : list byte -> JapaneseCode) (data : list byte)
         (hint : AutoDetectScript),
    text_path data -> In hint presence_tests ->
    EncodingDetector guessJP data hint
      = mkResult (runHeuristics guessJP (sample_of data) hint)
                 AutoDetectedEncoding hint false
    /\ In (Encoding (EncodingDetector guessJP data hint)) (hint_names hint).
Proof.
  intros guessJP data hint (Hne & Hfree & Hnull) Hin.
  pose proof (presence_test_names guessJP (sample_of data) hint Hin) as Hname.
  destruct (hint_names_proper _ _ Hname) as (Hr & _).
  assert (Hh : hint <> ScriptNone).
  { intros ->. unfold presence_tests in Hin. simpl In in Hin.
    intuition discriminate. }
  assert (E : EncodingDetector guessJP data hint
              = mkResult (runHeuristics guessJP (sample_of data) hint)
                         AutoDetectedEncoding hint false).
  { rewrite (detect_text_path guessJP data hint Hne Hfree Hnull).
    now rewrite (hint_stage_taken _ _ _ Hh Hr). }
  split; [exact E | rewrite E; exact Hname].
Qed.

Lemma X3_witness :
  EncodingDetector guessJP_unknown hello_world Turkish
    = mkResult "iso-8859-9" AutoDetectedEncoding Turkish false
  /\ In (Encoding (EncodingDetector guessJP_unknown hello_world Turkish))
        (hint_names Turkish).
Proof.
  apply (X3_presence_test_hint_always_decides guessJP_unknown hello_world Turkish).
  - exact hello_world_text_path.
  - unfold presence_tests. simpl In. auto 8.
Defined.

(** X4: the binary flag of the classifier and the quick predicate see the
    same null bytes; they differ exactly on the buffers that open with a
    byte-order mark, which the classifier always calls text.  The length
    test of [IsText] changes nothing: [IsText] is the negation of
    [isBinary] on every buffer. *)
Theorem X4_binary_flag_and_IsText :
  forall (guessJP : list byte -> JapaneseCode) (data : list byte)
         (hint : AutoDetectScript),
    IsText data = negb (isBinary data)
    /\ IsBinary (EncodingDetector guessJP data hint)
       = negb (IsText data) && negb (snd (checkBOM data)).
Proof.
  intros guessJP data hint. split; [apply IsText_isBinary|].
  rewrite IsText_isBinary, negb_involutive.
  destruct data as [|b0 data'] eqn:Edata; [reflexivity|].
  rewrite <- Edata. assert (Hne : data <> []) by (subst; discriminate).
  clear Edata b0 data'.
  destruct (checkBOM_cases data) as [H|[H|[H|H]]];
    try (rewrite (detect_BOM guessJP data hint _ Hne H), H;
         cbn [IsBinary snd negb]; now rewrite andb_false_r).
  rewrite H. cbn [snd negb]. rewrite andb_true_r.
  destruct (isBinary data) eqn:Hbin.
  - now rewrite (detect_binary guessJP data hint Hne H Hbin).
  - now apply detect_text_not_binary.
Qed.

(** X5: the fields of a result are consistent with one another.  A result
    has one of five shapes: a BOM name with source BOM; "binary" with
    source default and the binary flag; "us-ascii" with source default;
    "UTF-8" with source heuristic and no script; or source heuristic with
    a script and a name of that script's family, the script being the
    hint, WesternEuropean or Japanese.  The sources xml-header, meta-tag
    and user-chosen never occur, and the binary flag is set only in the
    second shape. *)
Theorem X5_shape_of_the_result :
  forall (guessJP : list byte -> JapaneseCode) (data : list byte)
         (hint : AutoDetectScript),
    (exists prefix name,
        In (prefix, name) BOM_table
        /\ EncodingDetector guessJP data hint = mkResult name BOM ScriptNone false)
    \/ EncodingDetector guessJP data hint
       = mkResult "binary" DefaultEncoding ScriptNone true
    \/ EncodingDetector guessJP data hint
       = mkResult "us-ascii" DefaultEncoding ScriptNone false
    \/ EncodingDetector guessJP data hint
       = mkResult "UTF-8" AutoDetectedEncoding ScriptNone false
    \/ (exists script name,
          In name (hint_names script)
          /\ (script = hint \/ script = WesternEuropean \/ script = Japanese)
          /\ EncodingDetector guessJP data hint
             = mkResult name AutoDetectedEncoding script false).
Proof.
  intros guessJP data hint.
  destruct (detect_classified guessJP data hint) as
      [ He | prefix name Hin Hs | Hne Hfree Hnull | Ht Hh Hr | Ht Hskip Hw
      | Ht Hskip Hw Hj | Ht Hskip Hw Hj Hv | Ht Hskip Hw Hj Hv ].
  - auto.
  - left. now exists prefix, name.
  - auto.
  - do 4 right. eexists hint, _. split; [|split; [|reflexivity]]; auto.
    now apply hinted_answer_named.
  - do 4 right. eexists WesternEuropean, _. split; [|split; [|reflexivity]]; auto.
    now apply WesternEuropean_answer_named.
  - do 4 right. eexists Japanese, _. split; [|split; [|reflexivity]]; auto.
    now apply Japanese_answer_named.
  - auto.
  - auto.
Qed.

(** X6: the name "us-ascii" is returned for the empty buffer and for
    buffers that are not valid UTF-8 and on which no heuristic consulted
    has an answer, and for no other: a non-empty buffer that is valid
    UTF-8, plain ASCII included, is never reported as us-ascii. *)
Theorem X6_us_ascii_means_empty_or_invalid_UTF8 :
  forall (guessJP : list byte -> JapaneseCode) (data : list byte)
         (hint : AutoDetectScript),
    Encoding (EncodingDetector guessJP data hint) = "us-ascii"
    <-> data = []
        \/ (text_path data /\ hint_skipped guessJP data hint
            /\ automaticDetectionForWesternEuropean (sample_of data) = ""
            /\ automaticDetectionForJapanese guessJP (sample_of data) = ""
            /\ utf8_Valid data = false).
Proof.
  intros guessJP data hint. split.
  - destruct (detect_classified guessJP data hint) as
        [ He | prefix name Hin Hs | Hne Hfree Hnull | Ht Hh Hr | Ht Hskip Hw
        | Ht Hskip Hw Hj | Ht Hskip Hw Hj Hv | Ht Hskip Hw Hj Hv ];
      cbn [Encoding]; intros E;
      first [ left; assumption | right; tauto | exfalso ].
    + unfold BOM_table in Hin. simpl In in Hin. subst name.
      intuition discriminate.
    + discriminate E.
    + apply hinted_answer_named, hint_names_proper in Hr. tauto.
    + apply WesternEuropean_answer_named, hint_names_proper in Hw. tauto.
    + apply Japanese_answer_named, hint_names_proper in Hj. tauto.
    + discriminate E.
  - intros [-> | (Ht & Hskip & Hw & Hj & Hv)]; [reflexivity|].
    now rewrite (classified_detect _ _ _ _ (by_default _ _ _ Ht Hskip Hw Hj Hv)).
Qed.

Lemma hint_names_not_Cyrillic (hint : AutoDetectScript) (s : string) :
  hint <> Cyrillic -> In s (hint_names hint) ->
  ~ In s ["ibm866"; "cp1251"; "koi8-u"].
Proof.
  intros Hh Hin Hc. simpl In in Hc.
  destruct hint; cbn [hint_names] in Hin; simpl In in Hin;
    try congruence; intuition congruence.
Qed.

(** X7: only the hint Cyrillic makes the classifier report the Cyrillic
    script or one of the code pages ibm866, cp1251, koi8-u.  With any
    other hint, or none, Cyrillic text in a single-byte encoding is
    attributed to another family. *)
Theorem X7_Cyrillic_code_pages_need_the_hint :
  forall (guessJP : list byte -> JapaneseCode) (data : list byte)
         (hint : AutoDetectScript),
    hint <> Cyrillic ->
    Script (EncodingDetector guessJP data hint) <> Cyrillic
    /\ ~ In (Encoding (EncodingDetector guessJP data hint))
            ["ibm866"; "cp1251"; "koi8-u"].
Proof.
  intros guessJP data hint Hh.
  destruct (detect_classified guessJP data hint) as
      [ He | prefix name Hin Hs | Hne Hfree Hnull | Ht Hh' Hr | Ht Hskip Hw
      | Ht Hskip Hw Hj | Ht Hskip Hw Hj Hv | Ht Hskip Hw Hj Hv ];
    cbn [Script Encoding]; (split; [try discriminate; try congruence|]);
    try (simpl In; intuition discriminate).
  - unfold BOM_table in Hin. simpl In in Hin. simpl In.
    intuition congruence.
  - apply (hint_names_not_Cyrillic hint); [exact Hh|].
    now apply hinted_answer_named.
  - apply (hint_names_not_Cyrillic WesternEuropean); [discriminate|].
    now apply WesternEuropean_answer_named.
  - apply (hint_names_not_Cyrillic Japanese); [discriminate|].
    now apply Japanese_answer_named.
Qed.

Lemma X7_witness :
  Script (EncodingDetector guessJP_unknown khorosho_cp1251 ScriptNone) <> Cyrillic
  /\ ~ In (Encoding (EncodingDetector guessJP_unknown khorosho_cp1251 ScriptNone))
          ["ibm866"; "cp1251"; "koi8-u"].
Proof.
  apply (X7_Cyrillic_code_pages_need_the_hint guessJP_unknown khorosho_cp1251 ScriptNone).
  discriminate.
Defined.

Example khorosho_cp1251_classified :
  EncodingDetector guessJP_unknown khorosho_cp1251 ScriptNone
    = mkResult "iso-8859-15" AutoDetectedEncoding WesternEuropean false
  /\ EncodingDetector guessJP_unknown khorosho_cp1251 Cyrillic
    = mkResult "cp1251" AutoDetectedEncoding Cyrillic false.
Proof. split; reflexivity. Qed.

(** ** The Western European scan *)

Lemma skipn_at_last (i : nat) (l : list byte) :
  (i + 1 = len l)%nat -> skipn i l = [at_ l i].
Proof.
  intros H. rewrite skipn_at_cons by lia.
  rewrite skipn_all2 by (unfold len in H; lia). reflexivity.
Qed.

Lemma weLoop_scan (n : nat) :
  forall (i : nat) (ptr : list byte) (k : Z),
    (i + n + 1 = len ptr)%nat -> weLoop n i ptr k = weScan (skipn i ptr) k.
Proof.
  induction n as [|n IH]; intros i ptr k H; cbn [weLoop].
  - rewrite skipn_at_last by lia. reflexivity.
  - rewrite (skipn_at_cons i ptr) by lia.
    pose proof (skipn_at_cons (S i) ptr ltac:(lia)) as Hq.
    destruct (skipn (S i) ptr) as [|q r] eqn:E; [discriminate Hq|].
    injection Hq as Hq _. cbn [weScan]. cbv zeta.
    replace (i + 1)%nat with (S i) by lia. rewrite <- Hq.
    rewrite !(IH (S i) ptr) by lia. rewrite E. reflexivity.
Qed.

(** The index loop of the source and the recursion over the sample
    agree. *)
Lemma WesternEuropean_scan (ptr : list byte) :
  automaticDetectionForWesternEuropean ptr = weScan ptr 0.
Proof.
  unfold automaticDetectionForWesternEuropean. cbv zeta.
  destruct (len ptr =? 0)%nat eqn:E.
  - apply len_zero in E. subst ptr. reflexivity.
  - apply Nat.eqb_neq in E. rewrite weLoop_scan by lia. reflexivity.
Qed.

Lemma weScan_step (b b' : byte) (l : list byte) (k : Z) :
  weScan (b :: b' :: l) k
  = if 0x79 <? u8 b then
      if (0xc1 <? u8 b) && (u8 b <? 0xf0) && (0x7f <? u8 b') && (u8 b' <? 0xc0)
      then "UTF-8"
      else if (0x78 <=? u8 b) && (u8 b <=? 0x9F) then "cp1252"
      else weScan (b' :: l) (k + 1)
    else weScan (b' :: l) k.
Proof. reflexivity. Qed.

Lemma weScan_inconclusive (l : list byte) :
  forall k : Z,
    0 <= k ->
    (weScan l k = "" <-> k = 0 /\ Forall (fun b => u8 b <= 0x79) (removelast l)).
Proof.
  assert (Hfinal : forall k, 0 <= k ->
            ((if 0 <? k then "iso-8859-15" else "") = "" <-> k = 0 /\ True)).
  { intros k Hk. destruct (0 <? k) eqn:E.
    - apply Z.ltb_lt in E. split; [discriminate | lia].
    - apply Z.ltb_ge in E. split; [split; [lia | exact I] | reflexivity]. }
  induction l as [|b l IH]; intros k Hk.
  - cbn [weScan removelast]. rewrite (Hfinal k Hk).
    split; intros [H _]; (split; [exact H | auto]).
  - destruct l as [|b' l'].
    + cbn [weScan removelast]. rewrite (Hfinal k Hk).
      split; intros [H _]; (split; [exact H | auto]).
    + change (removelast (b :: b' :: l')) with (b :: removelast (b' :: l')).
      rewrite weScan_step.
      destruct (0x79 <? u8 b) eqn:Ep.
      * apply Z.ltb_lt in Ep. split.
        -- split_ifs; try discriminate. intros H.
           apply (IH (k + 1)) in H; lia.
        -- intros [_ H]. apply Forall_inv in H. lia.
      * apply Z.ltb_ge in Ep. rewrite (IH k Hk). split.
        -- intros [H1 H2]. split; [exact H1 | now constructor].
        -- intros [H1 H2]. split; [exact H1 | now apply Forall_inv_tail in H2].
Qed.

Lemma weScan_cp1252 (pre : list byte) :
  forall (b c : byte) (rest : list byte) (k : Z),
    Forall (fun a => u8 a <= 0x79) pre -> 0x79 < u8 b <= 0x9F ->
    weScan (pre ++ b :: c :: rest) k = "cp1252".
Proof.
  induction pre as [|a pre IH]; intros b c rest k Hpre Hb.
  - cbn [app]. rewrite weScan_step.
    assert (H1 : (0x79 <? u8 b) = true) by (apply Z.ltb_lt; lia).
    assert (H2 : (0xc1 <? u8 b) = false) by (apply Z.ltb_ge; lia).
    assert (H3 : (0x78 <=? u8 b) = true) by (apply Z.leb_le; lia).
    assert (H4 : (u8 b <=? 0x9F) = true) by (apply Z.leb_le; lia).
    rewrite H1, H2, H3, H4. reflexivity.
  - assert (Ha : (0x79 <? u8 a) = false)
      by (apply Z.ltb_ge; apply Forall_inv in Hpre; exact Hpre).
    apply Forall_inv_tail in Hpre.
    change ((a :: pre) ++ b :: c :: rest) with (a :: (pre ++ b :: c :: rest)).
    destruct (pre ++ b :: c :: rest) as [|x l] eqn:E.
    + destruct pre; discriminate E.
    + rewrite weScan_step, Ha, <- E. now apply IH.
Qed.

(** X8: the Western European heuristic is inconclusive exactly when no
    byte other than the last one of the sample exceeds 0x79; the last byte
    is never examined on its own, and samples of at most one byte are
    always inconclusive. *)
Theorem X8_WesternEuropean_inconclusive_iff :
  forall ptr : list byte,
    automaticDetectionForWesternEuropean ptr = ""
    <-> Forall (fun b => u8 b <= 0x79) (removelast ptr).
Proof.
  intros ptr. rewrite WesternEuropean_scan.
  rewrite (weScan_inconclusive ptr 0 (Z.le_refl 0)). tauto.
Qed.

(** X9: when the first byte above 0x79 of a sample is at most 0x9F and is
    not the last byte, the Western European heuristic answers "cp1252";
    the bytes 0x7A..0x7F count, so a plain ASCII text containing one of
    z, curly braces, the bar or the tilde before its last byte is
    classified as cp1252 (source heuristic, script WesternEuropean)
    whenever the hint stage does not decide. *)
Theorem X9_ASCII_above_0x79_is_cp1252 :
  forall (guessJP : list byte -> JapaneseCode) (data : list byte)
         (hint : AutoDetectScript) (pre : list byte) (b c : byte)
         (rest : list byte),
    text_path data -> hint_skipped guessJP data hint ->
    sample_of data = pre ++ b :: c :: rest ->
    Forall (fun a => u8 a <= 0x79) pre -> 0x79 < u8 b <= 0x9F ->
    automaticDetectionForWesternEuropean (sample_of data) = "cp1252"
    /\ EncodingDetector guessJP data hint
       = mkResult "cp1252" AutoDetectedEncoding WesternEuropean false.
Proof.
  intros guessJP data hint pre b c rest (Hne & Hfree & Hnull) Hskip Hs Hpre Hb.
  assert (Hw : automaticDetectionForWesternEuropean (sample_of data) = "cp1252").
  { rewrite WesternEuropean_scan, Hs. now apply weScan_cp1252. }
  split; [exact Hw|].
  rewrite (detect_text_path guessJP data hint Hne Hfree Hnull).
  rewrite (hint_stage_skipped _ _ _ Hskip).
  rewrite unhinted_WesternEuropean; rewrite Hw; [reflexivity | discriminate].
Qed.

Lemma X9_witness :
  automaticDetectionForWesternEuropean
    (sample_of (list_byte_of_string "lazy dog")) = "cp1252"
  /\ EncodingDetector guessJP_unknown (list_byte_of_string "lazy dog") ScriptNone
     = mkResult "cp1252" AutoDetectedEncoding WesternEuropean false.
Proof.
  apply (X9_ASCII_above_0x79_is_cp1252 guessJP_unknown
           (list_byte_of_string "lazy dog") ScriptNone
           (list_byte_of_string "la") x7a x79 (list_byte_of_string " dog")).
  - split; [discriminate | split].
    + apply checkBOM_BOM_free. reflexivity.
    + apply isBinary_false. reflexivity.
  - left. reflexivity.
  - reflexivity.
  - repeat constructor; vm_compute; discriminate.
  - vm_compute. split; [reflexivity | discriminate].
Defined.

(** ** The counters of the Cyrillic loop *)

Lemma cyrStep_count (prev p : byte) (c : CyrillicCounters) :
  bucket_total (cyrStep prev p c)
  = bucket_total c + (if bucketed p then 1 else 0).
Proof.
  destruct c as [um ks cs kst cst c51 koi ibm].
  unfold cyrStep, bucket_total, bucketed. cbv zeta.
  destruct (0xdf <? u8 p) eqn:E1; destruct (0xbf <? u8 p) eqn:E2;
    destruct ((0x9f <? u8 p) && (u8 p <? 0xb0)) eqn:E3; cbn [orb];
    split_ifs; cbn [cp1251SmallRange koiSmallRange ibm866SmallRange];
    try lia;
    apply Z.ltb_lt in E1; apply Z.ltb_ge in E2; lia.
Qed.

Lemma cyrFold_count (l : list byte) :
  forall (prev : byte) (c : CyrillicCounters),
    bucket_total (cyrFold prev l c)
    = bucket_total c + Z.of_nat (List.length (filter bucketed l)).
Proof.
  induction l as [|p l IH]; intros prev c; cbn [cyrFold filter].
  - cbn [List.length]. lia.
  - rewrite IH, cyrStep_count. destruct (bucketed p); cbn [List.length]; lia.
Qed.

Lemma cyrCount_count (ptr : list byte) :
  bucket_total (cyrCount ptr)
  = Z.of_nat (List.length (filter bucketed (cyrVisited ptr))).
Proof.
  rewrite cyrCount_scan. unfold cyrVisited.
  destruct (firstn cyrillicWindow ptr) as [|b0 rest]; cbn [cyrScan tl].
  - reflexivity.
  - rewrite cyrFold_count. reflexivity.
Qed.

Lemma cyrDecide_inconclusive (c : CyrillicCounters) :
  cyrDecide c = "" <-> bucket_total c < 8.
Proof.
  split; [|apply cyrDecide_few].
  unfold cyrDecide, bucket_total. cbv zeta.
  destruct (_ <? 8) eqn:E; [intros _; now apply Z.ltb_lt in E|].
  split_ifs; discriminate.
Qed.

Lemma cyrVisited_length (ptr : list byte) :
  List.length (cyrVisited ptr) = (Nat.min cyrillicWindow (len ptr) - 1)%nat.
Proof.
  unfold cyrVisited, len.
  pose proof (length_firstn cyrillicWindow ptr) as H.
  destruct (firstn cyrillicWindow ptr) as [|b0 rest]; cbn [tl List.length] in *; lia.
Qed.

Lemma filter_length_le (f : byte -> bool) (l : list byte) :
  (List.length (filter f l) <= List.length l)%nat.
Proof.
  induction l as [|b l IH]; cbn [filter List.length]; [lia|].
  destruct (f b); cbn [List.length]; lia.
Qed.

(** X10: the Cyrillic heuristic is inconclusive exactly when fewer than 8
    of the bytes at indices 1 to 999 of the sample lie in 0xA0..0xAF or
    0xC0..0xFF; in particular it never answers on a sample of 8 bytes or
    fewer, the byte at index 0 not being counted. *)
Theorem X10_Cyrillic_inconclusive_iff :
  (forall ptr : list byte,
      automaticDetectionForCyrillic ptr = ""
      <-> (List.length (filter bucketed (cyrVisited ptr)) < 8)%nat)
  /\ (forall ptr : list byte,
        (len ptr <= 8)%nat -> automaticDetectionForCyrillic ptr = "").
Proof.
  assert (H : forall ptr : list byte,
             automaticDetectionForCyrillic ptr = ""
             <-> (List.length (filter bucketed (cyrVisited ptr)) < 8)%nat).
  { intros ptr. unfold automaticDetectionForCyrillic.
    rewrite cyrDecide_inconclusive, cyrCount_count. lia. }
  split; [exact H|].
  intros ptr Hlen. apply H.
  pose proof (filter_length_le bucketed (cyrVisited ptr)).
  pose proof (cyrVisited_length ptr). lia.
Qed.

Lemma X10_witness :
  automaticDetectionForCyrillic [xee; xee; xee; xee; xee; xee; xee; xee] = "".
Proof.
  apply (proj2 X10_Cyrillic_inconclusive_iff).
  unfold len. cbn [List.length]. lia.
Defined.

Lemma cyrStep_bounded (prev p : byte) (c : CyrillicCounters) (n : Z) :
  cyr_bounded c n -> cyr_bounded (cyrStep prev p c) (n + 1).
Proof.
  destruct c as [um ks cs kst cst c51 koi ibm].
  unfold cyr_bounded, cyrStep, bucket_total. cbv zeta.
  cbn [utf8Mark koiScore koiSt cp1251Score cp1251St cp1251SmallRange
       koiSmallRange ibm866SmallRange].
  intros H.
  repeat match goal with
         | |- context [if ?b then _ else _] => destruct b eqn:?
         end;
    cbn [utf8Mark koiScore koiSt cp1251Score cp1251St cp1251SmallRange
         koiSmallRange ibm866SmallRange];
    rewrite ?orb_true_iff, ?orb_false_iff, ?Z.eqb_eq, ?Z.eqb_neq in *;
    lia.
Qed.

Lemma cyrFold_bounded (l : list byte) :
  forall (prev : byte) (c : CyrillicCounters) (n : Z),
    cyr_bounded c n ->
    cyr_bounded (cyrFold prev l c) (n + Z.of_nat (List.length l)).
Proof.
  induction l as [|p l IH]; intros prev c n H; cbn [cyrFold List.length].
  - now rewrite Z.add_0_r.
  - replace (n + Z.of_nat (S (List.length l)))
      with ((n + 1) + Z.of_nat (List.length l)) by lia.
    apply IH. now apply cyrStep_bounded.
Qed.

(** X11: the counters of the Cyrillic loop stay small.  After the loop
    none is negative; the UTF-8 marks, KOI8 scores and KOI8 sentence marks
    are counted among the bytes of the KOI8 range, the cp1251 scores and
    marks among those of the cp1251 range; and the three ranges together
    hold at most the number of bytes visited, which is at most 999.  The
    sums and the product 3 * utf8Mark of the decision therefore stay far
    from the bounds of a machine integer. *)
Theorem X11_Cyrillic_counters_bounded :
  forall ptr : list byte,
    cyr_bounded (cyrCount ptr) (Z.of_nat (List.length (cyrVisited ptr)))
    /\ Z.of_nat (List.length (cyrVisited ptr)) <= 999
    /\ 0 <= 3 * utf8Mark (cyrCount ptr) <= 2997.
Proof.
  intros ptr.
  assert (Hb : cyr_bounded (cyrCount ptr) (Z.of_nat (List.length (cyrVisited ptr)))).
  { rewrite cyrCount_scan. unfold cyrVisited.
    destruct (firstn cyrillicWindow ptr) as [|b0 rest]; cbn [cyrScan tl].
    - unfold cyr_bounded, bucket_total. cbn. lia.
    - apply (cyrFold_bounded rest b0 cyrZero 0).
      unfold cyr_bounded, bucket_total. cbn. lia. }
  assert (Hl : Z.of_nat (List.length (cyrVisited ptr)) <= 999).
  { rewrite cyrVisited_length.
    assert (cyrillicWindow = 1000%nat) by reflexivity. lia. }
  split; [exact Hb | split; [exact Hl|]].
  unfold cyr_bounded, bucket_total in Hb.
  destruct Hb as (H1 & H2 & H3 & H4 & H5 & H6 & H7 & H8 & H9). lia.
Qed.

(** ** What the entry points read *)

Lemma bytes_HasPrefix_firstn (prefix : list byte) :
  forall (n : nat) (data : list byte),
    (List.length prefix <= n)%nat ->
    bytes_HasPrefix (firstn n data) prefix = bytes_HasPrefix data prefix.
Proof.
  induction prefix as [|p prefix IH]; intros n data H; cbn [bytes_HasPrefix].
  - reflexivity.
  - cbn [List.length] in H. destruct n as [|n]; [lia|].
    destruct data as [|b data]; cbn [firstn]; [reflexivity|].
    rewrite IH by lia. reflexivity.
Qed.

Lemma checkBOM_firstn (n : nat) (data : list byte) :
  (3 <= n)%nat -> checkBOM (firstn n data) = checkBOM data.
Proof.
  intros H. unfold checkBOM.
  rewrite !bytes_HasPrefix_firstn by (cbn [List.length]; lia). reflexivity.
Qed.

Lemma isBinary_window (data : list byte) :
  isBinary data = bytes_Contains0 (firstn binaryWindow data).
Proof. unfold isBinary. cbv zeta. now rewrite window_firstn. Qed.

Lemma firstn_narrow (m n : nat) (a b : list byte) :
  (m <= n)%nat -> firstn n a = firstn n b -> firstn m a = firstn m b.
Proof.
  intros Hmn H.
  rewrite <- (Nat.min_l m n Hmn), <- !firstn_firstn, H. reflexivity.
Qed.

Lemma firstn_nil_iff (n : nat) (a b : list byte) :
  (0 < n)%nat -> firstn n a = firstn n b ->
  (len a =? 0)%nat = (len b =? 0)%nat.
Proof.
  intros Hn H. destruct n as [|n]; [lia|].
  destruct a, b; cbn [firstn] in H; try discriminate H; reflexivity.
Qed.

(** X12: the quick predicate reads only the first 8000 bytes of a buffer;
    the classifier reads only the first 16384 bytes, except for the final
    validity check, which looks at the whole buffer: two buffers with the
    same first 16 KiB that are both valid or both invalid UTF-8 get the
    same classification. *)
Theorem X12_entry_points_read_a_prefix :
  (forall a b : list byte,
      firstn binaryWindow a = firstn binaryWindow b -> IsText a = IsText b)
  /\ (forall (guessJP : list byte -> JapaneseCode) (a b : list byte)
             (hint : AutoDetectScript),
        firstn maxBuffer a = firstn maxBuffer b ->
        utf8_Valid a = utf8_Valid b ->
        EncodingDetector guessJP a hint = EncodingDetector guessJP b hint).
Proof.
  split.
  - intros a b H. rewrite !IsText_isBinary, !isBinary_window, H. reflexivity.
  - intros guessJP a b hint H Hv.
    assert (Hlen : (len a =? 0)%nat = (len b =? 0)%nat).
    { apply (firstn_nil_iff maxBuffer); [unfold maxBuffer; lia | exact H]. }
    assert (Hbom : checkBOM a = checkBOM b).
    { rewrite <- (checkBOM_firstn 3 a), <- (checkBOM_firstn 3 b) by lia.
      f_equal. apply (firstn_narrow 3 maxBuffer); [unfold maxBuffer; lia | exact H]. }
    assert (Hbin : isBinary a = isBinary b).
    { rewrite !isBinary_window. f_equal.
      apply (firstn_narrow binaryWindow maxBuffer);
        [unfold binaryWindow, maxBuffer; lia | exact H]. }
    unfold EncodingDetector, errorsIfUtf8. cbv zeta.
    rewrite !window_firstn, Hlen, Hbom, Hbin, H, Hv. reflexivity.
Qed.

Lemma X12_witness :
  IsText (repeat x41 binaryWindow ++ [x00]) = IsText (repeat x41 binaryWindow)
  /\ EncodingDetector guessJP_unknown (repeat x61 maxBuffer ++ [x7a; x7a]) ScriptNone
     = EncodingDetector guessJP_unknown (repeat x61 maxBuffer ++ [x62]) ScriptNone.
Proof.
  split.
  - apply (proj1 X12_entry_points_read_a_prefix). vm_compute. reflexivity.
  - apply (proj2 X12_entry_points_read_a_prefix); vm_compute; reflexivity.
Defined.

(** ** The presence tests *)

Lemma ceLoop_answer_of (rest : list byte) :
  forall (i size : nat) (charset : string),
    (i + List.length rest = size)%nat ->
    charset = "" \/ charset = "cp1250" \/ charset = "iso-8859-2" ->
    ceLoop rest i size charset = ceAnswer rest charset.
Proof.
  induction rest as [|b rest IH]; intros i size charset Hsize Hc.
  - unfold ceAnswer. cbn [ceLoop existsb].
    destruct Hc as [->|[->| ->]]; reflexivity.
  - cbn [List.length] in Hsize.
    assert (Hguard : (size <? i + 1)%nat = false) by (apply Nat.ltb_ge; lia).
    cbn [ceLoop]. cbv zeta. rewrite Hguard.
    unfold ceAnswer. cbn [existsb]. fold (ceHigh b).
    change ((u8 b =? 0x81) || (u8 b =? 0x83) || (u8 b =? 0x90) || (u8 b =? 0x98))
      with (ceIbm b).
    change ((u8 b =? 0xA5) || (u8 b =? 0xAE) || (u8 b =? 0xBE) || (u8 b =? 0xC3)
            || (u8 b =? 0xD0) || (u8 b =? 0xE3) || (u8 b =? 0xF0))
      with (ceIso b).
    destruct (ceHigh b) eqn:Eh.
    + destruct (ceIbm b) eqn:Ei; cbn [orb]; [reflexivity|].
      rewrite (IH (S i) size "cp1250") by (auto; lia).
      unfold ceAnswer. cbn [String.eqb Ascii.eqb Bool.eqb].
      destruct (existsb ceIbm rest); [reflexivity|].
      destruct (existsb ceHigh rest); reflexivity.
    + assert (Ei : ceIbm b = false).
      { unfold ceIbm, ceHigh in *.
        rewrite andb_false_iff, Z.leb_gt, Z.leb_gt in Eh.
        rewrite !orb_false_iff, !Z.eqb_neq. lia. }
      rewrite Ei. cbn [orb].
      destruct (ceIso b) eqn:Eo.
      * rewrite IH by (try lia; destruct Hc as [->|[->| ->]]; cbn; auto).
        unfold ceAnswer.
        destruct (existsb ceIbm rest); [reflexivity|].
        destruct (existsb ceHigh rest); [reflexivity|].
        destruct Hc as [->|[->| ->]]; reflexivity.
      * rewrite IH by (try lia; exact Hc). unfold ceAnswer. reflexivity.
Qed.

(** X13: the answer of the Central European heuristic depends only on
    which bytes occur in the sample, by priority: "ibm852" when one of
    0x81, 0x83, 0x90, 0x98 occurs anywhere; otherwise "cp1250" when a byte
    of 0x80..0x9F occurs; otherwise "iso-8859-2" when one of 0xA5, 0xAE,
    0xBE, 0xC3, 0xD0, 0xE3, 0xF0 occurs; otherwise "iso-8859-3".  The two
    early returns guarded by [i+1 > len(ptr)] are never taken. *)
Theorem X13_CentralEuropean_by_priority :
  forall ptr : list byte,
    automaticDetectionForCentralEuropean ptr
    = if existsb ceIbm ptr then "ibm852"
      else if existsb ceHigh ptr then "cp1250"
      else if existsb ceIso ptr then "iso-8859-2"
      else "iso-8859-3".
Proof.
  intros ptr. unfold automaticDetectionForCentralEuropean.
  rewrite ceLoop_answer_of; [reflexivity | reflexivity | now left].
Qed.

Lemma Arabic_presence (ptr : list byte) :
  automaticDetectionForArabic ptr
  = if existsb (fun b => arabicMarker (u8 b)) ptr then "cp1256" else "iso-8859-6".
Proof.
  induction ptr as [|b rest IH]; cbn [automaticDetectionForArabic existsb];
    [reflexivity|].
  destruct (arabicMarker (u8 b)); [reflexivity | exact IH].
Qed.

Lemma Greek_presence (ptr : list byte) :
  automaticDetectionForGreek ptr
  = if existsb (fun b => greekMarker (u8 b)) ptr then "cp1253" else "iso-8859-7".
Proof.
  induction ptr as [|b rest IH]; cbn [automaticDetectionForGreek existsb];
    [reflexivity|].
  destruct (greekMarker (u8 b)); [reflexivity | exact IH].
Qed.

Lemma Turkish_presence (ptr : list byte) :
  automaticDetectionForTurkish ptr
  = if existsb (fun b => turkishMarker (u8 b)) ptr then "cp1254" else "iso-8859-9".
Proof.
  induction ptr as [|b rest IH]; cbn [automaticDetectionForTurkish existsb];
    [reflexivity|].
  destruct (turkishMarker (u8 b)); [reflexivity | exact IH].
Qed.

Lemma existsb_Permutation (f : byte -> bool) (l l' : list byte) :
  Permutation l l' -> existsb f l = existsb f l'.
Proof.
  induction 1 as [| x l l' _ IH | x y l | l l' l'' _ IH1 _ IH2]; cbn [existsb].
  - reflexivity.
  - now rewrite IH.
  - destruct (f x), (f y); reflexivity.
  - now rewrite IH1.
Qed.

(** X14: the Arabic, Central European, Greek and Turkish heuristics are
    pure presence tests: their answer does not change when the bytes of
    the sample are reordered. *)
Theorem X14_presence_tests_ignore_order :
  forall l l' : list byte,
    Permutation l l' ->
    automaticDetectionForArabic l = automaticDetectionForArabic l'
    /\ automaticDetectionForCentralEuropean l
       = automaticDetectionForCentralEuropean l'
    /\ automaticDetectionForGreek l = automaticDetectionForGreek l'
    /\ automaticDetectionForTurkish l = automaticDetectionForTurkish l'.
Proof.
  intros l l' H.
  rewrite !Arabic_presence, !Greek_presence, !Turkish_presence.
  unfold automaticDetectionForCentralEuropean.
  rewrite !ceLoop_answer_of by (auto; reflexivity). unfold ceAnswer.
  rewrite !(existsb_Permutation _ l l' H). auto.
Qed.

Lemma X14_witness :
  automaticDetectionForArabic [x41; xa5; x80] = automaticDetectionForArabic [x80; x41; xa5]
  /\ automaticDetectionForCentralEuropean [x41; xa5; x80]
     = automaticDetectionForCentralEuropean [x80; x41; xa5]
  /\ automaticDetectionForGreek [x41; xa5; x80] = automaticDetectionForGreek [x80; x41; xa5]
  /\ automaticDetectionForTurkish [x41; xa5; x80]
     = automaticDetectionForTurkish [x80; x41; xa5].
Proof.
  apply (X14_presence_tests_ignore_order [x41; xa5; x80] [x80; x41; xa5]).
  apply Permutation_sym, (Permutation_cons_app [x41; xa5] [] x80).
  rewrite app_nil_r. apply Permutation_refl.
Defined.

(** ** The XML declaration scanner *)

Lemma spanValue_clean (l : list byte) :
  existsb isQuote (fst (spanValue l)) = false.
Proof.
  induction l as [|b l IH]; cbn [spanValue]; [reflexivity|].
  destruct (isQuote b) eqn:E; [reflexivity|].
  destruct (spanValue l) as [v r]. cbn [fst existsb] in *.
  now rewrite E, IH.
Qed.

Lemma spanValue_app (v : list byte) (q : byte) (r : list byte) :
  existsb isQuote v = false -> isQuote q = true ->
  spanValue (v ++ q :: r) = (v, q :: r).
Proof.
  intros Hv Hq. induction v as [|b v IH]; cbn [app spanValue].
  - now rewrite Hq.
  - cbn [existsb] in Hv. apply orb_false_iff in Hv. destruct Hv as [Hb Hv].
    rewrite Hb, (IH Hv). reflexivity.
Qed.

Lemma matchEncodingAt_clean (l v : list byte) :
  matchEncodingAt l = Some v -> existsb isQuote v = false.
Proof.
  unfold matchEncodingAt.
  destruct (bytes_HasPrefix l _); [|discriminate].
  destruct (skipn 9 l) as [|q l']; [discriminate|].
  destruct (isQuote q); [|discriminate].
  pose proof (spanValue_clean l') as H.
  destruct (spanValue l') as [[|b w] [|c r]]; try discriminate.
  intros E. injection E as <-. exact H.
Qed.

Lemma FindStringSubmatch_clean (header : list byte) :
  forall v, FindStringSubmatch header = Some v -> existsb isQuote v = false.
Proof.
  induction header as [|b header IH]; intros v; cbn [FindStringSubmatch].
  - destruct (matchEncodingAt []) eqn:E; [|discriminate].
    intros H. injection H as <-. now apply (matchEncodingAt_clean []).
  - destruct (matchEncodingAt (b :: header)) eqn:E.
    + intros H. injection H as <-. now apply (matchEncodingAt_clean (b :: header)).
    + apply IH.
Qed.

Lemma FindStringSubmatch_miss (b : byte) (l : list byte) :
  matchEncodingAt (b :: l) = None ->
  FindStringSubmatch (b :: l) = FindStringSubmatch l.
Proof. intros H. cbn [FindStringSubmatch]. now rewrite H. Qed.

Lemma FindStringSubmatch_hit (l v : list byte) :
  matchEncodingAt l = Some v -> FindStringSubmatch l = Some v.
Proof. intros H. destruct l; cbn [FindStringSubmatch]; now rewrite H. Qed.


Lemma strings_Index_skipn (substr : list byte) (n : nat) :
  forall s, substr <> [] ->
    strings_Index s substr = None -> strings_Index (skipn n s) substr = None.
Proof.
  intros s Hsub. revert s. induction n as [|n IH]; intros s H; [exact H|].
  destruct s as [|b s]; [exact H|]. cbn [skipn]. apply IH.
  cbn [strings_Index] in H.
  destruct (bytes_HasPrefix (b :: s) substr); [discriminate H|].
  destruct (strings_Index s substr); [discriminate H | reflexivity].
Qed.

Lemma strings_Index_cons_miss (b : byte) (s substr : list byte) :
  bytes_HasPrefix (b :: s) substr = false ->
  strings_Index (b :: s) substr = option_map S (strings_Index s substr).
Proof. intros H. cbn [strings_Index]. now rewrite H. Qed.

(** The first "?>" at or after a text without one, closed by a quote. *)
Lemma strings_Index_after_name (name rest : list byte) :
  strings_Index name (list_byte_of_string "?>") = None ->
  strings_Index (name ++ [x22] ++ list_byte_of_string "?>" ++ rest)
                (list_byte_of_string "?>")
  = Some (S (List.length name)).
Proof.
  induction name as [|b name IH]; intros H.
  - reflexivity.
  - cbn [strings_Index] in H.
    destruct (bytes_HasPrefix (b :: name) (list_byte_of_string "?>")) eqn:Eb;
      [discriminate H|].
    destruct (strings_Index name (list_byte_of_string "?>")) eqn:En;
      [discriminate H|].
    change ((b :: name) ++ [x22] ++ list_byte_of_string "?>" ++ rest)
      with (b :: (name ++ [x22] ++ list_byte_of_string "?>" ++ rest)).
    cbn [strings_Index]. rewrite (IH eq_refl).
    assert (Hp : bytes_HasPrefix
                   (b :: (name ++ [x22] ++ list_byte_of_string "?>" ++ rest))
                   (list_byte_of_string "?>") = false).
    { destruct name as [|c name].
      - cbn. apply andb_false_r.
      - exact Eb. }
    rewrite Hp. reflexivity.
Qed.

Lemma firstn_app_exact (a b : list byte) :
  firstn (List.length a) (a ++ b) = a.
Proof.
  rewrite firstn_app, Nat.sub_diag, firstn_all. cbn [firstn]. apply app_nil_r.
Qed.

(** X15: round trip through an XML declaration.  For a document that
    opens with the declaration of version 1.0 naming the encoding [name]
    in double quotes, [findXMLEncoding] returns [name], whatever follows
    the declaration, provided [name] is not empty and contains neither a
    quote nor the two characters that close the declaration. *)
Theorem X15_findXMLEncoding_round_trip :
  forall name rest : list byte,
    name <> [] -> existsb isQuote name = false ->
    strings_Index name (list_byte_of_string "?>") = None ->
    findXMLEncoding (xml_declaration name ++ rest) = string_of_list_byte name.
Proof.
  intros name rest Hne Hq Hclose.
  unfold findXMLEncoding, xml_declaration. cbv zeta.
  rewrite <- !app_assoc.
  change (strings_Index (xml_prolog ++ name ++ [x22] ++ list_byte_of_string "?>" ++ rest)
            (list_byte_of_string "<?xml")) with (Some 0%nat).
  cbn [skipn].
  assert (Hend : strings_Index
                   (xml_prolog ++ name ++ [x22] ++ list_byte_of_string "?>" ++ rest)
                   (list_byte_of_string "?>")
                 = Some (List.length (xml_prolog ++ name ++ [x22]))).
  { rewrite length_app.
    pose proof (strings_Index_after_name name rest Hclose) as Hname.
    revert Hname.
    generalize (name ++ [x22] ++ list_byte_of_string "?>" ++ rest).
    intros tail Htail.
    let l := eval vm_compute in xml_prolog in change xml_prolog with l.
    cbn [app List.length].
    repeat (rewrite strings_Index_cons_miss by reflexivity).
    rewrite Htail. cbn [option_map]. rewrite length_app. cbn [List.length].
    f_equal. lia. }
  rewrite Hend.
  replace (xml_prolog ++ name ++ [x22] ++ list_byte_of_string "?>" ++ rest)
    with ((xml_prolog ++ name ++ [x22]) ++ list_byte_of_string "?>" ++ rest)
    by (rewrite <- !app_assoc; reflexivity).
  rewrite firstn_app_exact.
  assert (Hfind : FindStringSubmatch (xml_prolog ++ name ++ [x22]) = Some name).
  { let l := eval vm_compute in xml_prolog in change xml_prolog with l.
    cbn [app].
    repeat (rewrite FindStringSubmatch_miss by reflexivity).
    apply FindStringSubmatch_hit.
    change (matchEncodingAt
              (list_byte_of_string "encoding=" ++ [x22] ++ name ++ [x22])
            = Some name).
    unfold matchEncodingAt.
    change (bytes_HasPrefix
              (list_byte_of_string "encoding=" ++ [x22] ++ name ++ [x22])
              (list_byte_of_string "encoding=")) with true.
    change (skipn 9 (list_byte_of_string "encoding=" ++ [x22] ++ name ++ [x22]))
      with (x22 :: (name ++ [x22])).
    change (isQuote x22) with true. cbv iota.
    rewrite (spanValue_app name x22 [] Hq eq_refl).
    destruct name; [contradiction | reflexivity]. }
  rewrite Hfind. reflexivity.
Qed.

Lemma X15_witness :
  findXMLEncoding
    (xml_declaration (list_byte_of_string "windows-1251")
     ++ list_byte_of_string "<doc encoding='x'/>")
  = "windows-1251".
Proof.
  apply (X15_findXMLEncoding_round_trip (list_byte_of_string "windows-1251")
           (list_byte_of_string "<doc encoding='x'/>")).
  - discriminate.
  - reflexivity.
  - reflexivity.
Defined.

(** X16: [findXMLEncoding] answers only from inside a closed declaration:
    it returns the empty string when the data holds no "<?xml" or no "?>",
    and the name it returns never contains a quote character. *)
Theorem X16_findXMLEncoding_needs_a_declaration :
  forall data : list byte,
    (strings_Index data (list_byte_of_string "<?xml") = None
     \/ strings_Index data (list_byte_of_string "?>") = None ->
     findXMLEncoding data = "")
    /\ existsb isQuote (list_byte_of_string (findXMLEncoding data)) = false.
Proof.
  intros data. split.
  - intros [H|H]; unfold findXMLEncoding; cbv zeta.
    + now rewrite H.
    + destruct (strings_Index data (list_byte_of_string "<?xml")) as [m|];
        [|reflexivity].
      rewrite (strings_Index_skipn _ m data); [reflexivity | discriminate | exact H].
  - unfold findXMLEncoding. cbv zeta.
    destruct (strings_Index data _) as [m|]; [|reflexivity].
    destruct (strings_Index (skipn m data) _) as [e|]; [|reflexivity].
    destruct (FindStringSubmatch _) as [v|] eqn:E; [|reflexivity].
    rewrite list_byte_of_string_of_list_byte.
    exact (FindStringSubmatch_clean _ v E).
Qed.

Lemma X16_witness :
  findXMLEncoding (list_byte_of_string "<?xml version='1.0' encoding='UTF-8'") = "".
Proof.
  apply (proj1 (X16_findXMLEncoding_needs_a_declaration
                  (list_byte_of_string "<?xml version='1.0' encoding='UTF-8'"))).
  right. reflexivity.
Defined.

(** ** The directory walk *)

Lemma insert_by_perm (lt : Node -> Node -> bool) (x : Node) (l : list Node) :
  Permutation (insert_by lt x l) (x :: l).
Proof.
  induction l as [|y l IH]; cbn [insert_by]; [apply Permutation_refl|].
  destruct (lt y x); [|apply Permutation_refl].
  apply Permutation_trans with (y :: x :: l).
  - now apply perm_skip.
  - apply perm_swap.
Qed.

Lemma insertion_sort_perm (lt : Node -> Node -> bool) (l : list Node) :
  Permutation (insertion_sort lt l) l.
Proof.
  unfold insertion_sort. induction l as [|x l IH]; cbn [fold_right].
  - apply Permutation_refl.
  - apply Permutation_trans with (x :: fold_right (insert_by lt) [] l).
    + apply insert_by_perm.
    + now apply perm_skip.
Qed.

Section WalkFacts.

Variable filepath_Join : string -> string -> string.
Variable sort_Slice : (Node -> Node -> bool) -> list Node -> list Node.
Hypothesis sort_Slice_perm :
  forall (lt : Node -> Node -> bool) (l : list Node),
    Permutation (sort_Slice lt l) l.

Local Abbreviation visible := (visibleFiles filepath_Join).
Local Abbreviation walk_spec := (walk_spec filepath_Join).

Lemma skipped_git (n : Node) : String.eqb (Name n) ".git" = true -> skipped n = true.
Proof. unfold skipped. now intros ->. Qed.

Lemma skipped_temp (n : Node) : String.eqb (Name n) "temp" = true -> skipped n = true.
Proof. unfold skipped. intros ->. apply orb_true_r. Qed.

Lemma skipped_neither (n : Node) :
  String.eqb (Name n) ".git" = false -> String.eqb (Name n) "temp" = false ->
  skipped n = false.
Proof. unfold skipped. now intros -> ->. Qed.

Lemma visible_skipped (base : string) (n : Node) :
  skipped n = true -> visible base n = [] /\ visibleEntries n = 0%nat.
Proof. intros H. destruct n; cbn [visibleFiles visibleEntries]; now rewrite H. Qed.

Lemma list_sum_cons (a : nat) (l : list nat) :
  list_sum (a :: l) = (a + list_sum l)%nat.
Proof. reflexivity. Qed.

Lemma walkItems_spec
      (walk : option string -> list Node -> option string ->
              string -> string -> string -> option Walked)
      (bound : nat) :
  (forall opened items readdir cur base prefix,
      (S (list_max (map depth items)) <= bound)%nat ->
      walk_spec (walk opened items readdir cur base prefix) opened items base) ->
  forall (rest : list Node) (i n : nat) (cur base prefix : string),
    Forall (fun c => depth c <= bound)%nat rest ->
    exists out err files,
      walkItems filepath_Join walk rest i n cur base prefix = Some (out, err, files)
      /\ Permutation files (flat_map (visible base) rest)
      /\ List.length out = list_sum (map visibleEntries rest).
Proof.
  intros Hwalk. induction rest as [|item rest IH]; intros i n cur base prefix Hd.
  - exists [], [], []. cbn. auto.
  - pose proof (Forall_inv Hd) as Hitem. apply Forall_inv_tail in Hd.
    destruct (IH (S i) n cur base prefix Hd) as (out & err & files & E & Hp & Hl).
    cbn [walkItems flat_map map]. rewrite list_sum_cons. cbv zeta. rewrite E.
    destruct (String.eqb (Name item) ".git") eqn:Egit.
    { destruct (visible_skipped base item (skipped_git _ Egit)) as [-> ->].
      exists out, err, files. auto. }
    destruct (String.eqb (Name item) "temp") eqn:Etemp.
    { destruct (visible_skipped base item (skipped_temp _ Etemp)) as [-> ->].
      exists out, err, files. auto. }
    pose proof (skipped_neither _ Egit Etemp) as Hns.
    destruct item as [name [e | data] | name opened items readdir];
      cbn [visibleFiles visibleEntries Name] in *; rewrite Hns.
    + eexists _, _, _. split; [reflexivity|]. split.
      * cbn [app]. now apply perm_skip.
      * cbn [List.length]. lia.
    + eexists _, _, _. split; [reflexivity|]. split.
      * cbn [app]. now apply perm_skip.
      * cbn [List.length]. lia.
    + cbn [depth] in Hitem.
      pose proof (Hwalk opened items readdir (filepath_Join cur name)
                        (filepath_Join base name)
                        (if (i =? n - 1)%nat
                         then String.append prefix "    "
                         else String.append prefix "│   ") Hitem) as Hsub.
      unfold walk_spec in Hsub. destruct opened as [e|].
      * rewrite Hsub. cbn [returned stdout stderr].
        eexists _, _, _. split; [reflexivity|]. split.
        -- exact Hp.
        -- cbn [List.length app]. lia.
      * destruct Hsub as (o & er & fs & -> & Hps & Hls).
        cbn [returned stdout stderr].
        eexists _, _, _. split; [reflexivity|]. split.
        -- now apply Permutation_app.
        -- cbn [List.length]. rewrite length_app. lia.
Qed.

Lemma walkDir_unfold (fuel : nat) (items : list Node) (readdir : option string)
      (cur base prefix : string) :
  walkDir filepath_Join sort_Slice (S fuel) None items readdir cur base prefix
  = match walkItems filepath_Join (walkDir filepath_Join sort_Slice fuel)
                    (sort_Slice less items) 0
                    (List.length (sort_Slice less items)) cur base prefix with
    | Some (out, err, files) =>
        Some (mkWalked out
                (match readdir with
                 | Some e => [String.append "Error reading directory "
                                (String.append cur (String.append ": " e))]
                 | None => []
                 end ++ err)
                (inr files))
    | None => None
    end.
Proof. reflexivity. Qed.

Lemma walkDir_step (fuel : nat) :
  (forall opened items readdir cur base prefix,
      (S (list_max (map depth items)) <= fuel)%nat ->
      walk_spec (walkDir filepath_Join sort_Slice fuel opened items readdir
                         cur base prefix) opened items base) ->
  forall (opened : option string) (items : list Node) (readdir : option string)
         (cur base prefix : string),
    (list_max (map depth items) <= fuel)%nat ->
    walk_spec (walkDir filepath_Join sort_Slice (S fuel) opened items readdir
                       cur base prefix)
              opened items base.
Proof.
  intros Hwalk opened items readdir cur base prefix Hd.
  destruct opened as [e|]; [reflexivity|].
  unfold walk_spec. rewrite walkDir_unfold.
  destruct (walkItems_spec (walkDir filepath_Join sort_Slice fuel) fuel Hwalk
              (sort_Slice less items) 0%nat
              (List.length (sort_Slice less items)) cur base prefix)
    as (out & err & files & E & Hp & Hl).
  { apply (Permutation_Forall (Permutation_sym (sort_Slice_perm less items))).
    apply list_max_le in Hd. now apply Forall_map in Hd. }
  rewrite E. eexists _, _, _. split; [reflexivity|]. split.
  - apply (Permutation_trans Hp).
    apply Permutation_flat_map, sort_Slice_perm.
  - rewrite Hl. apply Permutation_list_sum, Permutation_map, sort_Slice_perm.
Qed.

Lemma walkDir_spec (fuel : nat) :
  forall (opened : option string) (items : list Node) (readdir : option string)
         (cur base prefix : string),
    (list_max (map depth items) <= fuel)%nat ->
    walk_spec (walkDir filepath_Join sort_Slice (S fuel) opened items readdir
                       cur base prefix)
              opened items base.
Proof.
  induction fuel as [|fuel IH]; apply walkDir_step.
  - intros; lia.
  - intros. apply IH. lia.
Qed.

End WalkFacts.

(** X17: [walkDir] on a directory it can open returns, without error,
    exactly the files it can reach, each once: the files of the tree that
    are not named .git or temp and lie below no entry of that name nor
    below a directory that cannot be opened; each carries its path
    relative to the start and the flag [IsText] of its content, false
    when it cannot be read.  A failure further down (a directory that
    does not open, a file that does not read) never makes the walk fail.
    It prints one line for each entry it reaches.  This holds for any
    [sort.Slice] that permutes its slice, once the fuel exceeds the height
    of the tree. *)
Theorem X17_walkDir_returns_the_reachable_files :
  forall (filepath_Join : string -> string -> string)
         (sort_Slice : (Node -> Node -> bool) -> list Node -> list Node),
    (forall lt l, Permutation (sort_Slice lt l) l) ->
    forall (fuel : nat) (items : list Node) (readdir : option string)
           (currentDir baseRelPath prefix : string),
      (list_max (map depth items) < fuel)%nat ->
      exists out err files,
        walkDir filepath_Join sort_Slice fuel None items readdir
                currentDir baseRelPath prefix
        = Some (mkWalked out err (inr files))
        /\ Permutation files
                       (flat_map (visibleFiles filepath_Join baseRelPath) items)
        /\ List.length out = list_sum (map visibleEntries items).
Proof.
  intros filepath_Join sort_Slice Hperm fuel items readdir cur base prefix Hd.
  destruct fuel as [|fuel]; [lia|].
  apply (walkDir_spec filepath_Join sort_Slice Hperm fuel None items readdir
                      cur base prefix).
  lia.
Qed.

Lemma X17_witness :
  exists out err files,
    walkDir join_plain insertion_sort 3 None sample_tree None "/root" "" ""
    = Some (mkWalked out err (inr files))
    /\ Permutation files (flat_map (visibleFiles join_plain "") sample_tree)
    /\ List.length out = list_sum (map visibleEntries sample_tree).
Proof.
  apply (X17_walkDir_returns_the_reachable_files join_plain insertion_sort
           insertion_sort_perm 3 sample_tree None "/root" "" "").
  cbn. lia.
Defined.

Example sample_tree_walk :
  walkDir join_plain insertion_sort 3 None sample_tree None "/root" "" ""
  = Some (mkWalked
            ["├── src/"; "│   └── main.go"; "├── a.bin"; "├── b.txt"; "└── locked"]
            ["Could not read file /root/locked to determine type: permission denied"]
            (inr [mkFileInfo "src/main.go" true; mkFileInfo "a.bin" false;
                  mkFileInfo "b.txt" true; mkFileInfo "locked" false])).
Proof. reflexivity. Qed.

(** ** The order of a listing *)

Lemma less_tie (a b : Node) :
  less a b = false -> less b a = false ->
  IsDir a = IsDir b /\ Name a = Name b.
Proof.
  unfold less.
  destruct (IsDir a) eqn:Ea, (IsDir b) eqn:Eb; cbn [Bool.eqb negb];
    try discriminate; intros H1 H2; (split; [reflexivity|]).
  - unfold String.ltb in *. rewrite String.compare_antisym in H2.
    destruct (String.compare (Name a) (Name b)) eqn:E; try discriminate.
    now apply String.compare_eq_iff.
  - unfold String.ltb in *. rewrite String.compare_antisym in H2.
    destruct (String.compare (Name a) (Name b)) eqn:E; try discriminate.
    now apply String.compare_eq_iff.
Qed.

Lemma less_dirs_first (a b : Node) :
  IsDir a = true -> IsDir b = false -> less a b = true /\ less b a = false.
Proof. unfold less. intros -> ->. split; reflexivity. Qed.

Lemma same_name_same_entry (l : list Node) (a b : Node) :
  NoDup (map Name l) -> In a l -> In b l -> Name a = Name b -> a = b.
Proof.
  induction l as [|x l IH]; intros Hnd Ha Hb Hn; [contradiction|].
  cbn [map] in Hnd. apply NoDup_cons_iff in Hnd. destruct Hnd as [Hx Hnd].
  destruct Ha as [<- | Ha], Hb as [<- | Hb].
  - reflexivity.
  - exfalso. apply Hx. rewrite Hn. now apply in_map.
  - exfalso. apply Hx. rewrite <- Hn. now apply in_map.
  - now apply IH.
Qed.

Lemma sorted_listing_unique (l1 : list Node) :
  forall l2 : list Node,
    NoDup (map Name l1) -> Permutation l1 l2 ->
    sorted_by_less l1 -> sorted_by_less l2 -> l1 = l2.
Proof.
  unfold sorted_by_less.
  induction l1 as [|a l1 IH]; intros l2 Hnd Hp H1 H2.
  - apply Permutation_nil in Hp. now subst.
  - destruct l2 as [|b l2];
      [apply Permutation_sym, Permutation_nil in Hp; discriminate|].
    assert (Hab : a = b).
    { assert (Ha : In a (b :: l2))
        by (apply (Permutation_in _ Hp); now left).
      assert (Hb : In b (a :: l1))
        by (apply (Permutation_in _ (Permutation_sym Hp)); now left).
      destruct Ha as [Ha | Ha]; [now symmetry|].
      destruct Hb as [Hb | Hb]; [exact Hb|].
      apply StronglySorted_inv in H1. destruct H1 as [_ H1].
      apply StronglySorted_inv in H2. destruct H2 as [_ H2].
      rewrite Forall_forall in H1, H2.
      destruct (less_tie a b (H2 a Ha) (H1 b Hb)) as [_ Hn].
      apply (same_name_same_entry (a :: l1)); auto; [now left | now right]. }
    subst b. f_equal. apply IH.
    + cbn [map] in Hnd. now apply NoDup_cons_iff in Hnd.
    + now apply Permutation_cons_inv in Hp.
    + now apply StronglySorted_inv in H1.
    + now apply StronglySorted_inv in H2.
Qed.

(** X18: the comparison of [walkDir] orders a listing completely.  Two
    entries neither of which is less than the other are of the same kind
    and name; so when the names of a listing are distinct, as they are in
    a directory, its sorted order is unique: it depends neither on the
    order in which [Readdir] delivers the entries nor on the sorting
    algorithm.  In a sorted listing no file precedes a directory. *)
Theorem X18_sorted_listing_is_unique :
  forall l1 l2 : list Node,
    NoDup (map Name l1) -> Permutation l1 l2 ->
    sorted_by_less l1 -> sorted_by_less l2 ->
    l1 = l2
    /\ (forall pre f post d,
          l1 = pre ++ f :: post -> IsDir f = false -> In d post ->
          IsDir d = false).
Proof.
  intros l1 l2 Hnd Hp H1 H2. split.
  - now apply sorted_listing_unique.
  - intros pre f post d -> Hf Hd.
    unfold sorted_by_less in H1.
    assert (Hs : StronglySorted (fun a b => less b a = false) (f :: post)).
    { clear -H1. induction pre as [|x pre IH]; [exact H1|].
      apply IH. cbn [app] in H1. now apply StronglySorted_inv in H1. }
    apply StronglySorted_inv in Hs. destruct Hs as [_ Hs].
    rewrite Forall_forall in Hs. specialize (Hs d Hd).
    destruct (IsDir d) eqn:Ed; [|reflexivity].
    destruct (less_dirs_first d f Ed Hf) as [Hlt _]. congruence.
Qed.

Lemma X18_witness :
  insertion_sort less sample_tree = insertion_sort less (rev sample_tree)
  /\ (forall pre f post d,
        insertion_sort less sample_tree = pre ++ f :: post ->
        IsDir f = false -> In d post -> IsDir d = false).
Proof.
  apply (X18_sorted_listing_is_unique (insertion_sort less sample_tree)
           (insertion_sort less (rev sample_tree))).
  - vm_compute. repeat constructor; cbn [In]; intuition discriminate.
  - apply Permutation_trans with sample_tree; [apply insertion_sort_perm|].
    apply Permutation_trans with (rev sample_tree);
      [apply Permutation_rev | apply Permutation_sym, insertion_sort_perm].
  - vm_compute. repeat constructor.
  - vm_compute. repeat constructor.
Defined.

(** ** UTF-8 by its first lead byte *)

Lemma weScan_UTF8 (pre : list byte) :
  forall (b c : byte) (rest : list byte) (k : Z),
    Forall (fun a => u8 a <= 0x79) pre ->
    0xc1 < u8 b < 0xf0 -> 0x7f < u8 c < 0xc0 ->
    weScan (pre ++ b :: c :: rest) k = "UTF-8".
Proof.
  induction pre as [|a pre IH]; intros b c rest k Hpre Hb Hc.
  - cbn [app]. rewrite weScan_step.
    assert (H1 : (0x79 <? u8 b) = true) by (apply Z.ltb_lt; lia).
    assert (H2 : (0xc1 <? u8 b) = true) by (apply Z.ltb_lt; lia).
    assert (H3 : (u8 b <? 0xf0) = true) by (apply Z.ltb_lt; lia).
    assert (H4 : (0x7f <? u8 c) = true) by (apply Z.ltb_lt; lia).
    assert (H5 : (u8 c <? 0xc0) = true) by (apply Z.ltb_lt; lia).
    rewrite H1, H2, H3, H4, H5. reflexivity.
  - assert (Ha : (0x79 <? u8 a) = false)
      by (apply Z.ltb_ge; apply Forall_inv in Hpre; exact Hpre).
    apply Forall_inv_tail in Hpre.
    change ((a :: pre) ++ b :: c :: rest) with (a :: (pre ++ b :: c :: rest)).
    destruct (pre ++ b :: c :: rest) as [|x l] eqn:E.
    + destruct pre; discriminate E.
    + rewrite weScan_step, Ha, <- E. now apply IH.
Qed.

(** X19: the label "UTF-8" of the Western European heuristic rests on one
    byte pair.  When the first byte above 0x79 of the sample is a lead
    byte in 0xC2..0xEF followed by a continuation byte 0x80..0xBF, a
    classification whose hint stage does not decide returns UTF-8, source
    heuristic, script WesternEuropean, whatever comes after the pair: the
    validity of the buffer as UTF-8 is not examined on this path. *)
Theorem X19_UTF8_by_first_lead_byte :
  forall (guessJP : list byte -> JapaneseCode) (data : list byte)
         (hint : AutoDetectScript) (pre : list byte) (b c : byte)
         (rest : list byte),
    text_path data -> hint_skipped guessJP data hint ->
    sample_of data = pre ++ b :: c :: rest ->
    Forall (fun a => u8 a <= 0x79) pre ->
    0xc1 < u8 b < 0xf0 -> 0x7f < u8 c < 0xc0 ->
    EncodingDetector guessJP data hint
    = mkResult "UTF-8" AutoDetectedEncoding WesternEuropean false.
Proof.
  intros guessJP data hint pre b c rest (Hne & Hfree & Hnull) Hskip Hs Hpre Hb Hc.
  assert (Hw : automaticDetectionForWesternEuropean (sample_of data) = "UTF-8").
  { rewrite WesternEuropean_scan, Hs. now apply weScan_UTF8. }
  rewrite (detect_text_path guessJP data hint Hne Hfree Hnull).
  rewrite (hint_stage_skipped _ _ _ Hskip).
  rewrite unhinted_WesternEuropean; rewrite Hw; [reflexivity | discriminate].
Qed.

Lemma X19_witness :
  utf8_Valid [x63; x61; x66; xc3; xa9; xff; xfe] = false
  /\ EncodingDetector guessJP_unknown [x63; x61; x66; xc3; xa9; xff; xfe] ScriptNone
     = mkResult "UTF-8" AutoDetectedEncoding WesternEuropean false.
Proof.
  split; [reflexivity|].
  apply (X19_UTF8_by_first_lead_byte guessJP_unknown
           [x63; x61; x66; xc3; xa9; xff; xfe] ScriptNone
           [x63; x61; x66] xc3 xa9 [xff; xfe]).
  - split; [discriminate | split].
    + apply checkBOM_BOM_free. reflexivity.
    + apply isBinary_false. reflexivity.
  - left. reflexivity.
  - reflexivity.
  - repeat constructor; vm_compute; discriminate.
  - vm_compute. split; reflexivity.
  - vm_compute. split; reflexivity.
Defined.

(** ** Hints without effect *)

(** X20: a hint matters only through an answer of its heuristic: when the
    hinted heuristic is inconclusive on the sample, the classification is
    that of the same buffer without a hint.  The hint WesternEuropean
    never matters: its heuristic is the first of the default order. *)
Theorem X20_hints_without_effect :
  forall (guessJP : list byte -> JapaneseCode) (data : list byte)
         (hint : AutoDetectScript),
    (runHeuristics guessJP (sample_of data) hint = "" ->
     EncodingDetector guessJP data hint = EncodingDetector guessJP data ScriptNone)
    /\ EncodingDetector guessJP data WesternEuropean
       = EncodingDetector guessJP data ScriptNone.
Proof.
  intros guessJP data hint. split.
  - intros H. unfold EncodingDetector. cbv zeta.
    rewrite window_firstn. fold (sample_of data). rewrite H.
    cbn [String.eqb negb script_eqb]. split_ifs; reflexivity.
  - unfold EncodingDetector. cbv zeta.
    rewrite window_firstn. fold (sample_of data).
    cbn [script_eqb negb runHeuristics]. split_ifs; reflexivity.
Qed.

Lemma X20_witness :
  EncodingDetector guessJP_unknown hello_world Cyrillic
  = EncodingDetector guessJP_unknown hello_world ScriptNone.
Proof.
  apply (proj1 (X20_hints_without_effect guessJP_unknown hello_world Cyrillic)).
  reflexivity.
Defined.
